(** * Territory conquest: geo-processing and ownership arbitration

    A shallow embedding of the territory engine of
    [src/providers/SessionProvider.tsx]: the geometry helpers ([haversine],
    [smoothPath], [toMetersXY], [polygonAreaM2], [bbox], [bboxesOverlap]),
    the loop-detection effect, the [setTerritories] updater that arbitrates
    ownership, and the [decayedTerritories] projection.

    JavaScript numbers are IEEE-754 binary64 values, so they are embedded as
    Rocq's primitive floats: [+], [-], [*], [/], comparisons and [abs] are
    the very operations the engine performs, rounding included. *)

From Stdlib Require Import Floats ZArith String List Bool Arith Lia.
Import ListNotations.

Set Warnings "-inexact-float".

Open Scope float_scope.

(** ** The host's [Math] object *)

Module JS.

(** [Math.sin], [Math.cos], [Math.atan2] and [Math.pow] are
    implementation-approximated by ECMAScript, and [Math.round] is not a
    primitive float operation; the engine is therefore embedded over an
    arbitrary host.  Nothing is assumed of these five functions unless a
    theorem says so. *)
Class Host : Type := {
  Math_sin : float -> float;
  Math_cos : float -> float;
  Math_atan2 : float -> float -> float;
  Math_pow : float -> float -> float;
  Math_round : float -> float
}.

Definition Math_PI : float := 3.141592653589793.

Definition Math_abs (x : float) : float := abs x.

Definition Math_sqrt (x : float) : float := sqrt x.

(** [Math.min(x, y)]: NaN if either argument is NaN, the smaller argument
    otherwise, [-0] counting as smaller than [+0]. *)
Definition Math_min (x y : float) : float :=
  if is_nan x || is_nan y then nan
  else if x <? y then x
  else if y <? x then y
  else if get_sign x then x else y.

(** [Math.max(x, y)]: NaN if either argument is NaN, the larger argument
    otherwise, [+0] counting as larger than [-0]. *)
Definition Math_max (x y : float) : float :=
  if is_nan x || is_nan y then nan
  else if x <? y then y
  else if y <? x then x
  else if get_sign x then y else x.

(** [Math.floor(x)] as an integer: a finite number [m * 2^e] is read on
    its IEEE-754 description; NaN and the infinities have no integer
    value. *)
Definition Math_floor (x : float) : option Z :=
  match Prim2SF x with
  | S754_zero _ => Some 0%Z
  | S754_finite s m e =>
      let v := if s then Z.neg m else Z.pos m in
      Some (if (0 <=? e)%Z then v * 2 ^ e else v / 2 ^ (- e))%Z
  | S754_infinity _ | S754_nan => None
  end.

(** [x >= y] and [x > y] on numbers. *)
Definition geb (x y : float) : bool := y <=? x.
Definition gtb (x y : float) : bool := y <? x.

(** The sign of a number, read on its IEEE-754 description: true of the
    zeros, of NaN and of the numbers whose sign bit is clear. *)
Definition sign_clear (x : spec_float) : bool :=
  match x with
  | S754_zero _ | S754_nan => true
  | S754_infinity s | S754_finite s _ _ => negb s
  end.

(** [for (let i = lo; i < lo + count; i++) acc = body(i, acc)]. *)
Fixpoint for_range {A : Type} (count : nat) (lo : nat)
    (body : nat -> A -> A) (acc : A) : A :=
  match count with
  | O => acc
  | S count' => for_range count' (S lo) body (body lo acc)
  end.

(** The same loop when its body may [break] with a result. *)
Fixpoint for_break {A : Type} (count : nat) (lo : nat)
    (body : nat -> option A) : option A :=
  match count with
  | O => None
  | S count' =>
      match body lo with
      | Some r => Some r
      | None => for_break count' (S lo) body
      end
  end.

End JS.

Import JS.

(** ** Data model *)

(** [LatLng] of line 15. *)
Record LatLng : Type := mkLatLng {
  latitude : float;
  longitude : float;
  timestamp : float
}.

(** [ActivityMode], [TerritoryOwner] and the thresholds of
    [constants/game]. *)
Inductive ActivityMode : Type := walk | run | cycle.

Record TerritoryOwner : Type := mkOwner {
  ownerId : string;
  strength : float
}.

Definition LOOP_CLOSE_THRESHOLD_M : float := 50.
Definition MIN_LOOP_DISTANCE_M : float := 20.
Definition MIN_TERRITORY_AREA_M2 : float := 30.
Definition DAILY_DECAY_RATE : float := 0.02.

(** [Territory] of lines 33-39. *)
Record Territory : Type := mkTerritory {
  id : string;
  mode : ActivityMode;
  polygon : list LatLng;
  createdAt : float;
  owners : list TerritoryOwner
}.

(** [points[j]!]: every read of the engine is in range; the default is
    never returned there. *)
Definition origin : LatLng := mkLatLng 0 0 0.
Definition at_index (points : list LatLng) (j : nat) : LatLng :=
  nth j points origin.

(** ** Geo primitives and smoothing *)

Module Geo.

Section WithHost.
Context {host : Host}.

Definition toRad (x : float) : float := (x * Math_PI) / 180.

(** [haversine], lines 50-62. *)
Definition haversine (a b : LatLng) : float :=
  let R := 6371000 in
  let dLat := toRad (latitude b - latitude a) in
  let dLon := toRad (longitude b - longitude a) in
  let lat1 := toRad (latitude a) in
  let lat2 := toRad (latitude b) in
  let sinDLat := Math_sin (dLat / 2) in
  let sinDLon := Math_sin (dLon / 2) in
  let h := sinDLat * sinDLat + Math_cos lat1 * Math_cos lat2 * sinDLon * sinDLon in
  let c := 2 * Math_atan2 (Math_sqrt h) (Math_sqrt (1 - h)) in
  R * c.

(** The accumulator of the inner loop of [smoothPath]: [lat], [lon], [ts]
    and the counter [n]. *)
Record Window : Type := mkWindow {
  w_lat : float; w_lon : float; w_ts : float; w_n : float
}.

Definition window_add (points : list LatLng) (j : nat) (acc : Window) : Window :=
  mkWindow (w_lat acc + latitude (at_index points j))
           (w_lon acc + longitude (at_index points j))
           (w_ts acc + timestamp (at_index points j))
           (w_n acc + 1).

(** One iteration of the outer loop of [smoothPath] (lines 69-81): the
    point pushed for index [i].  [half] is [Math.floor(w / 2)]; when [w] is
    NaN so are [start] and [end], and the inner loop does not run. *)
Definition smoothPoint (points : list LatLng) (half : option Z) (i : nat) : LatLng :=
  let acc :=
    match half with
    | Some hw =>
        let start := Z.max 0 (Z.of_nat i - hw) in
        let end_ := Z.min (Z.of_nat (length points) - 1) (Z.of_nat i + hw) in
        for_range (Z.to_nat (end_ - start + 1)) (Z.to_nat start)
                  (window_add points) (mkWindow 0 0 0 0)
    | None => mkWindow 0 0 0 0
    end in
  mkLatLng (w_lat acc / w_n acc) (w_lon acc / w_n acc)
           (Math_round (w_ts acc / w_n acc)).

(** [smoothPath], lines 64-84. *)
Definition smoothPath (points : list LatLng) (windowSize : float) : list LatLng :=
  if (length points <=? 2)%nat then points
  else
    let w := Math_max 2 (Math_min windowSize 5) in
    for_range (length points) 0%nat
              (fun i out => out ++ [smoothPoint points (Math_floor (w / 2)) i]) [].

(** [toMetersXY], lines 86-93, as the pair [(x, y)]. *)
Definition toMetersXY (originLat : float) (p : LatLng) : float * float :=
  let R := 6378137 in
  let dLat := ((latitude p - originLat) * Math_PI) / 180 in
  let dLon := (longitude p * Math_PI) / 180 in
  let x := R * dLon * Math_cos ((originLat * Math_PI) / 180) in
  let y := R * dLat in
  (x, y).

(** The loop of [polygonAreaM2] (lines 99-104) over the projected points. *)
Definition shoelace (pts : list (float * float)) : float :=
  for_range (length pts) 0%nat
    (fun i sum =>
       let a := nth i pts (0, 0) in
       let b := nth ((i + 1) mod length pts) pts (0, 0) in
       sum + (fst a * snd b - fst b * snd a))
    0.

(** [polygonAreaM2], lines 95-106. *)
Definition polygonAreaM2 (poly : list LatLng) : float :=
  if (length poly <? 3)%nat then 0
  else
    let originLat := latitude (at_index poly 0) in
    let pts := map (toMetersXY originLat) poly in
    Math_abs (shoelace pts) / 2.

End WithHost.

(** [bbox], lines 108-117. *)
Record BBox : Type := mkBBox {
  minLat : float; minLon : float; maxLat : float; maxLon : float
}.

Definition bbox_step (b : BBox) (p : LatLng) : BBox :=
  mkBBox (if latitude p <? minLat b then latitude p else minLat b)
         (if longitude p <? minLon b then longitude p else minLon b)
         (if gtb (latitude p) (maxLat b) then latitude p else maxLat b)
         (if gtb (longitude p) (maxLon b) then longitude p else maxLon b).

Definition bbox (poly : list LatLng) : BBox :=
  fold_left bbox_step poly (mkBBox infinity infinity neg_infinity neg_infinity).

(** [bboxesOverlap], lines 119-123. *)
Definition bboxesOverlap (a b : list LatLng) : bool :=
  let A := bbox a in
  let B := bbox b in
  negb ((maxLat A <? minLat B) || gtb (minLat A) (maxLat B)
        || (maxLon A <? minLon B) || gtb (minLon A) (maxLon B)).

End Geo.

Import Geo.

(** ** Provider state *)

(** The pieces of React state the loop-detection effect writes:
    [path], [territories], [capturedLoopCount], [loopCaptured] and
    [lastCaptured].  A state setter replaces one field. *)
Record ProviderState : Type := mkState {
  path : list LatLng;
  territories : list Territory;
  capturedLoopCount : nat;
  loopCaptured : bool;
  lastCaptured : option Territory
}.

(** ** Ownership arbitration (lines 1097-1154) *)

Module Arbitration.

(** [o?.ownerId === ownerId]. *)
Definition isOwner (claimant : string) (o : TerritoryOwner) : bool :=
  String.eqb (ownerId o) claimant.

(** [myOwnership.strength = s]: [myOwnership] is the object [find]
    returned, the first entry of the claimant in the array, and the
    assignment changes that entry in place. *)
Fixpoint setMyStrength (claimant : string) (s : float)
    (os : list TerritoryOwner) : list TerritoryOwner :=
  match os with
  | [] => []
  | o :: rest =>
      if isOwner claimant o then mkOwner (ownerId o) s :: rest
      else o :: setMyStrength claimant s rest
  end.

(** [otherOwners.reduce((sum, o) => sum + o.strength, 0)]. *)
Definition totalStrength (os : list TerritoryOwner) : float :=
  fold_left (fun sum o => sum + strength o) os 0.

(** The three branches of lines 1114-1137, on the [owners] array of one
    overlapping territory.  The result is the array afterwards and whether
    the territory was pushed on [changed]. *)
Definition arbitrateOwners (claimant : string) (os : list TerritoryOwner)
    : list TerritoryOwner * bool :=
  let myOwnership := find (isOwner claimant) os in
  let otherOwners := filter (fun o => negb (isOwner claimant o)) os in
  match myOwnership with
  | Some mine =>
      if (length otherOwners =? 0)%nat then
        (setMyStrength claimant (Math_min 2.0 (strength mine + 0.2)) os, true)
      else
        let s := strength mine + 0.5 in
        let os1 := setMyStrength claimant s os in
        if geb s 1.0 then
          let totalOthersStrength := totalStrength otherOwners in
          if gtb s totalOthersStrength
          then ([mkOwner claimant 1.0], true)
          else (os1, true)
        else (os1, true)
  | None =>
      if (0 <? length otherOwners)%nat
      then (os ++ [mkOwner claimant 0.5], true)
      else (os, false)
  end.

(** The territory object [t] once its [owners] array holds [os]. *)
Definition withOwners (t : Territory) (os : list TerritoryOwner) : Territory :=
  mkTerritory (id t) (mode t) (polygon t) (createdAt t) os.

(** An entry of [changed]. *)
Record Changed : Type := mkChanged {
  changed_id : string;
  changed_owners : list TerritoryOwner
}.

(** The variables the [for] loop of the updater carries: the territories
    already visited (as they are now), [overlappedExistingTerritories] and
    [changed]. *)
Record Loop : Type := mkLoop {
  visited : list Territory;
  overlappedExistingTerritories : bool;
  changed : list Changed
}.

(** One iteration of the loop, lines 1105-1138.  The guards of lines
    1106-1109 test that [t], [t.polygon] and [t.owners] are present, which
    a [Territory] value always satisfies. *)
Definition visit (claimant : string) (newPolygon : list LatLng)
    (st : Loop) (t : Territory) : Loop :=
  if bboxesOverlap (polygon t) newPolygon then
    let '(os, pushed) := arbitrateOwners claimant (owners t) in
    mkLoop (visited st ++ [withOwners t os]) true
           (if pushed then changed st ++ [mkChanged (id t) os] else changed st)
  else
    mkLoop (visited st ++ [t]) (overlappedExistingTerritories st) (changed st).

Definition runLoop (claimant : string) (newPolygon : list LatLng)
    (prev : list Territory) : Loop :=
  fold_left (visit claimant newPolygon) prev (mkLoop [] false []).

(** The function handed to [setTerritories], lines 1101-1154: the new
    value of [territories]. *)
Definition updater (claimant : string) (newTerr : Territory)
    (prev : list Territory) : list Territory :=
  let st := runLoop claimant (polygon newTerr) prev in
  if negb (overlappedExistingTerritories st)
  then newTerr :: visited st
  else visited st.

(** [shouldAddNewTerritory] once the updater has run. *)
Definition shouldAddNewTerritory (claimant : string) (newTerr : Territory)
    (prev : list Territory) : bool :=
  negb (overlappedExistingTerritories (runLoop claimant (polygon newTerr) prev)).

(** What the loop leaves at the place of [t]: [t] itself when its bounding
    box misses the new polygon, [t] with its owners arbitrated otherwise. *)
Definition settled (claimant : string) (newPolygon : list LatLng)
    (t : Territory) : Territory :=
  if bboxesOverlap (polygon t) newPolygon
  then withOwners t (fst (arbitrateOwners claimant (owners t)))
  else t.

(** A run of captures, each by its claimant with the territory record
    built for it, applied to the store in order. *)
Definition captures (cs : list (string * Territory)) (ts : list Territory)
    : list Territory :=
  fold_left (fun ts c => updater (fst c) (snd c) ts) cs ts.

(** The stores the engine reaches on its own: from no territory at all,
    by captures whose record is built as in lines 1087-1093, with the
    claimant as single owner of strength 1. *)
Inductive Reachable : list Territory -> Prop :=
| reach_start : Reachable []
| reach_capture (claimant : string) (newTerr : Territory) (ts : list Territory) :
    Reachable ts ->
    owners newTerr = [mkOwner claimant 1] ->
    Reachable (updater claimant newTerr ts).

End Arbitration.

(** ** Loop detection (lines 1048-1189) *)

Module LoopDetector.

Section WithHost.
Context {host : Host}.

(** The inner loop of lines 1058-1061: the length of the path from index
    [i] to its end. *)
Definition pathDistFrom (smoothed : list LatLng) (i : nat) : float :=
  for_range (length smoothed - 1 - i) i
    (fun j pathDist =>
       pathDist + haversine (at_index smoothed j) (at_index smoothed (j + 1)))
    0.

(** The test of one candidate start, lines 1054-1070: [Some pathDist] when
    the scan breaks at [i]. *)
Definition candidate (smoothed : list LatLng) (i : nat) : option (nat * float) :=
  let last := at_index smoothed (length smoothed - 1) in
  let potentialStart := at_index smoothed i in
  let distToPoint := haversine potentialStart last in
  if distToPoint <? LOOP_CLOSE_THRESHOLD_M then
    let pathDist := pathDistFrom smoothed i in
    if gtb pathDist MIN_LOOP_DISTANCE_M then Some (i, pathDist) else None
  else None.

(** The scan of lines 1049-1071: [loopStartIdx] and [loopDistance] when
    [loopDetected]. *)
Definition findLoop (smoothed : list LatLng) : option (nat * float) :=
  for_break (Nat.max 0 (length smoothed - 10)) 0 (candidate smoothed).

(** What one run of the detector over the smoothed path decides. *)
Record Capture : Type := mkCapture {
  loopStartIdx : nat;
  capturedPolygon : list LatLng;
  capturedArea : float;
  loopDistance : float
}.

Definition detect (smoothed : list LatLng) : option Capture :=
  if (10 <? length smoothed)%nat then
    match findLoop smoothed with
    | Some (idx, dist) =>
        let loopPath := skipn idx smoothed in
        let area := polygonAreaM2 loopPath in
        if geb area MIN_TERRITORY_AREA_M2
        then Some (mkCapture idx loopPath area dist)
        else None
    | None => None
    end
  else None.

(** [newTerr], lines 1087-1093. *)
Definition newTerritory (newId : string) (m : ActivityMode)
    (poly : list LatLng) (now : float) (claimant : string) : Territory :=
  mkTerritory newId m poly now [mkOwner claimant 1].

(** The effect of lines 1001-1190 on the provider state, for the current
    [mode] and [ownerId]; [newId] is the value of [uid()] and [now] that of
    [Date.now()].  The distance bookkeeping of lines 1006-1046, the
    uploads and the timer that hides the badge write none of the fields
    read here and are left out. *)
Definition loopDetectionEffect (currentMode : option ActivityMode)
    (claimant newId : string) (now : float) (st : ProviderState) : ProviderState :=
  match currentMode with
  | None => st
  | Some m =>
      if (length (path st) <? 2)%nat then st
      else
        let smoothed := smoothPath (path st) 3 in
        match detect smoothed with
        | Some c =>
            let newTerr := newTerritory newId m (capturedPolygon c) now claimant in
            mkState (firstn (loopStartIdx c + 1) smoothed)
                    (Arbitration.updater claimant newTerr (territories st))
                    (capturedLoopCount st + 1)
                    true
                    (Some newTerr)
        | None => st
        end
  end.

End WithHost.

End LoopDetector.

(** ** Decay projection (lines 1401-1412) *)

Module Decay.

Section WithHost.
Context {host : Host}.

(** [days] and [decay] of lines 1407-1408, for a territory created at
    [created]. *)
Definition days (now created : float) : float :=
  (now - created) / (1000 * 60 * 60 * 24).

Definition decay (now created : float) : float :=
  Math_pow (1 - DAILY_DECAY_RATE) (Math_max 0 (days now created)).

(** [{ ...o, strength: o.strength * decay }]. *)
Definition decayOwner (d : float) (o : TerritoryOwner) : TerritoryOwner :=
  mkOwner (ownerId o) (strength o * d).

(** [{ ...t, owners }]. *)
Definition decayTerritory (now : float) (t : Territory) : Territory :=
  mkTerritory (id t) (mode t) (polygon t) (createdAt t)
              (map (decayOwner (decay now (createdAt t))) (owners t)).

(** [decayedTerritories] on values; [now] is the value of [Date.now()].
    The [filter] of line 1405 keeps the entries that are territories with
    a polygon and an owners array, that is every [Territory] value. *)
Definition decayedTerritories (now : float) (ts : list Territory) : list Territory :=
  map (decayTerritory now) ts.

End WithHost.

End Decay.

(** ** The decay projection on the object store

    Territories and owners are JavaScript objects, and the arbitration
    writes some of them in place.  To state that the decay projection
    writes none, the same lines 1401-1412 are embedded a second time over
    a store of objects: a reference is an index in the store, an
    assignment to a field replaces the object at its reference, and a
    spread [{ ...x }] and the arrays built by [filter] and [map] are
    allocations. *)

Module Heap.

Definition ref : Type := nat.

(** An owner object, an array of references, or a territory object; the
    polygon of a territory is never written and is kept as a value. *)
Inductive object : Type :=
| OwnerObj (o : TerritoryOwner)
| ArrayObj (items : list ref)
| TerritoryObj (t_id : string) (t_mode : ActivityMode) (t_polygon : list LatLng)
               (t_createdAt : float) (t_owners : ref).

Definition heap : Type := list object.

(** Computations that read and extend the store and may fail. *)
Definition M (A : Type) : Type := heap -> option (A * heap).

Definition ret {A : Type} (a : A) : M A := fun h => Some (a, h).

Definition bind {A B : Type} (m : M A) (k : A -> M B) : M B :=
  fun h => match m h with
           | Some (a, h') => k a h'
           | None => None
           end.

Definition alloc (o : object) : M ref :=
  fun h => Some (length h, h ++ [o]).

Definition readOwner (r : ref) : M TerritoryOwner :=
  fun h => match nth_error h r with
           | Some (OwnerObj o) => Some (o, h)
           | _ => None
           end.

Definition readArray (r : ref) : M (list ref) :=
  fun h => match nth_error h r with
           | Some (ArrayObj items) => Some (items, h)
           | _ => None
           end.

(** An assignment to a field of the object at [r]: the object is
    replaced in place. *)
Definition write (r : ref) (o : object) : M unit :=
  fun h => if (r <? length h)%nat
           then Some (tt, firstn r h ++ o :: skipn (S r) h)
           else None.

(** [myOwnership.strength = s], the assignment of lines 1118 and 1126, on
    the owner object at [r]. *)
Definition assignStrength (r : ref) (s : float) : M unit :=
  bind (readOwner r) (fun o => write r (OwnerObj (mkOwner (ownerId o) s))).

Fixpoint mapM {A B : Type} (f : A -> M B) (l : list A) : M (list B) :=
  match l with
  | [] => ret []
  | a :: l' => bind (f a) (fun b => bind (mapM f l') (fun bs => ret (b :: bs)))
  end.

(** The guard of line 1405: [!!t && Array.isArray(t.polygon) &&
    Array.isArray(t.owners)]. *)
Definition isTerritory (h : heap) (r : ref) : bool :=
  match nth_error h r with
  | Some (TerritoryObj _ _ _ _ os) =>
      match nth_error h os with
      | Some (ArrayObj _) => true
      | _ => false
      end
  | _ => false
  end.

Section WithHost.
Context {host : Host}.

(** [(o) => ({ ...o, strength: o.strength * decay })]. *)
Definition decayOwner (d : float) (r : ref) : M ref :=
  bind (readOwner r) (fun o => alloc (OwnerObj (Decay.decayOwner d o))).

(** The function mapped over the territories, lines 1406-1411. *)
Definition decayTerritory (now : float) (r : ref) : M ref :=
  fun h =>
    match nth_error h r with
    | Some (TerritoryObj i m p created os) =>
        bind (readArray os) (fun items =>
        bind (mapM (decayOwner (Decay.decay now created)) items) (fun items' =>
        bind (alloc (ArrayObj items')) (fun owners' =>
        alloc (TerritoryObj i m p created owners')))) h
    | _ => None
    end.

(** [decayedTerritories]: [territories] is the reference held by the
    React state. *)
Definition decayedTerritories (now : float) (territories : ref) : M ref :=
  fun h =>
    match nth_error h territories with
    | Some (ArrayObj ts) =>
        bind (alloc (ArrayObj (filter (isTerritory h) ts))) (fun kept =>
        bind (mapM (decayTerritory now) (filter (isTerritory h) ts)) (fun ts' =>
        alloc (ArrayObj ts'))) h
    | _ => alloc (ArrayObj []) h
    end.

End WithHost.

(** A computation that writes no object of the store it starts from: the
    store it ends with is the initial one followed by what it allocated. *)
Definition allocatesOnly {A : Type} (m : M A) : Prop :=
  forall h a h', m h = Some (a, h') -> exists fresh, h' = h ++ fresh.

(** Reading values back from the store. *)
Fixpoint loadAll {A : Type} (load : ref -> option A) (rs : list ref)
    : option (list A) :=
  match rs with
  | [] => Some []
  | r :: rs' =>
      match load r, loadAll load rs' with
      | Some a, Some l => Some (a :: l)
      | _, _ => None
      end
  end.

Definition loadOwner (h : heap) (r : ref) : option TerritoryOwner :=
  match nth_error h r with
  | Some (OwnerObj o) => Some o
  | _ => None
  end.

Definition loadTerritory (h : heap) (r : ref) : option Territory :=
  match nth_error h r with
  | Some (TerritoryObj i m p created os) =>
      match nth_error h os with
      | Some (ArrayObj items) =>
          option_map (mkTerritory i m p created) (loadAll (loadOwner h) items)
      | _ => None
      end
  | _ => None
  end.

Definition loadTerritories (h : heap) (r : ref) : option (list Territory) :=
  match nth_error h r with
  | Some (ArrayObj ts) => loadAll (loadTerritory h) ts
  | _ => None
  end.

End Heap.

(** ** A reference host

    A host whose five functions are computed by series, so that the engine
    can be evaluated on concrete paths.  The theorems below hold for every
    host; this one supplies the concrete runs. *)

Module Reference.

(** [1 - x2/(n(n+1)) (1 - x2/((n+2)(n+3)) (...))], [k] factors deep: the
    alternating series of sine ([n = 2], times [x]) and cosine ([n = 1]). *)
Fixpoint alternating (k : nat) (n : float) (x2 : float) : float :=
  match k with
  | O => 1
  | S k' => 1 - x2 / (n * (n + 1)) * alternating k' (n + 2) x2
  end.

Definition sin (x : float) : float := x * alternating 12 2 (x * x).
Definition cos (x : float) : float := alternating 12 1 (x * x).

(** [1/n - x2 (1/(n+2) - x2 (...))]: the series of arctangent. *)
Fixpoint odd_series (k : nat) (n : float) (x2 : float) : float :=
  match k with
  | O => 1 / n
  | S k' => 1 / n - x2 * odd_series k' (n + 2) x2
  end.

Definition half_angle (t : float) : float := t / (1 + sqrt (1 + t * t)).

Definition atan (t : float) : float :=
  let u := half_angle (half_angle (half_angle t)) in
  8 * (u * odd_series 14 1 (u * u)).

Definition atan2 (y x : float) : float :=
  if 0 <? x then atan (y / x)
  else if x <? 0 then
    (if y <? 0 then atan (y / x) - Math_PI else atan (y / x) + Math_PI)
  else if 0 <? y then Math_PI / 2
  else if y <? 0 then - (Math_PI / 2)
  else y.

Fixpoint exp_series (k : nat) (n : float) (z : float) : float :=
  match k with
  | O => 1
  | S k' => 1 + z / n * exp_series k' (n + 1) z
  end.

Fixpoint squarings (k : nat) (x : float) : float :=
  match k with
  | O => x
  | S k' => squarings k' (x * x)
  end.

Definition exp (z : float) : float := squarings 10 (exp_series 14 1 (z / 1024)).

Fixpoint even_series (k : nat) (n : float) (x2 : float) : float :=
  match k with
  | O => 1 / n
  | S k' => 1 / n + x2 * even_series k' (n + 2) x2
  end.

Definition ln (x : float) : float :=
  let u := (x - 1) / (x + 1) in
  2 * (u * even_series 40 1 (u * u)).

(** [Math.pow(x, 0)] is [1] for every [x], as ECMAScript requires. *)
Definition pow (x y : float) : float :=
  if y =? 0 then 1 else exp (y * ln x).

Definition two52 : float := 4503599627370496.

(** [Math.round]: the nearest integer, ties towards [+Infinity]. *)
Definition round (x : float) : float :=
  let a := abs x in
  if a <? two52 then
    let r := (a + two52) - two52 in
    let fl := if a <? r then r - 1 else r in
    if x <? 0 then - (if 0.5 <? a - fl then fl + 1 else fl)
    else if a - fl <? 0.5 then (if get_sign x then - fl else fl)
    else fl + 1
  else x.

#[export] Instance host : Host := {
  Math_sin := sin;
  Math_cos := cos;
  Math_atan2 := atan2;
  Math_pow := pow;
  Math_round := round
}.

End Reference.



(** ** Concrete runs *)

Module Fixtures.

(** A point [lat], [lon] given in units of 0.0001 degree (about 11 m),
    sampled at second [sec]. *)
Definition pt (lat lon sec : float) : LatLng :=
  mkLatLng (lat * 0.0001) (lon * 0.0001) (1700000000000 + sec * 1000).

(** An approach of about 110 m from the south, then a square of about
    33 m by 33 m walked back to its first corner. *)
Definition walk14 : list LatLng :=
  [ pt (-10) 0 0; pt (-8) 0 3; pt (-6) 0 6; pt (-4) 0 9; pt (-2) 0 12;
    pt 0 0 15; pt 1.5 0 18; pt 3 0 21; pt 3 1.5 24; pt 3 3 27;
    pt 1.5 3 30; pt 0 3 33; pt 0 1.5 36; pt 0 0.3 39 ].

(** The same approach, then a walk up and straight back: a loop that
    encloses less than 30 square metres. *)
Definition thin14 : list LatLng :=
  [ pt (-10) 0 0; pt (-8) 0 3; pt (-6) 0 6; pt (-4) 0 9; pt (-2) 0 12;
    pt 0 0 15; pt 1 0 18; pt 2 0 21; pt 3 0 24; pt 4 0 27;
    pt 3 0.02 30; pt 2 0.02 33; pt 1 0.02 36; pt (-0.5) 0.02 39 ].

Definition square : list LatLng :=
  [ pt 0 0 0; pt 3 0 9; pt 3 3 18; pt 0 3 27 ].

Definition farSquare : list LatLng :=
  [ pt 100 100 0; pt 103 100 9; pt 103 103 18; pt 100 103 27 ].

(** A triangle of about 110 m by 80 m at latitude 45, whose first and last
    points lie on different parallels. *)
Definition triangle45 : list LatLng :=
  [ mkLatLng 45 7 0; mkLatLng 45 7.001 0; mkLatLng 45.001 7.001 0 ].

(** A capture of [square] by [who], with the record the effect builds. *)
Definition claim (who : string) : string * Territory :=
  (who, LoopDetector.newTerritory "fresh" walk square 1700000000000 who).

(** [A] captures [square] and strengthens it six times; [B] and [C] enter;
    [C] captures once more and [B] three times more. *)
Definition siege : list (string * Territory) :=
  map claim ["A"; "A"; "A"; "A"; "A"; "A"; "A"; "B"; "C"; "C"; "B"; "B"; "B"]%string.

Definition stateOf (p : list LatLng) (ts : list Territory) : ProviderState :=
  mkState p ts 0 false None.

Definition held (name : string) (poly : list LatLng) (os : list TerritoryOwner)
    : Territory :=
  mkTerritory name walk poly 1700000000000 os.

(** A store holding one territory of [A] (1.5) and [B] (0.5): the two
    owner objects, the owners array, the territory object and, at
    reference 4, the array held by the React state. *)
Definition sharedSquare : Territory :=
  held "t1" square [mkOwner "A" 1.5; mkOwner "B" 0.5].

Definition store0 : Heap.heap :=
  [ Heap.OwnerObj (mkOwner "A" 1.5); Heap.OwnerObj (mkOwner "B" 0.5);
    Heap.ArrayObj [0; 1]%nat;
    Heap.TerritoryObj "t1" walk square 1700000000000 2%nat;
    Heap.ArrayObj [3%nat] ].

(** A store of two territories: [farSquare] held by [C], [square] by [A]. *)
Definition twoSquares : list Territory :=
  [ held "t0" farSquare [mkOwner "C" 1]; held "t1" square [mkOwner "A" 1] ].

(** Six captures of [square] by [A]. *)
Definition sixByA : list Territory := repeat (snd (claim "A")) 6.

End Fixtures.

(** ** The order of numbers

    The comparison of two numbers that are not NaN is the lexicographic
    comparison of a key read on their IEEE-754 description: the class and
    sign, then the exponent, then the mantissa. *)

Module FloatOrder.

Definition key (x : spec_float) : Z * Z * Z :=
  match x with
  | S754_zero _ | S754_nan => (0, 0, 0)%Z
  | S754_infinity s => (if s then -2 else 2, 0, 0)%Z
  | S754_finite s m e => if s then (-1, - e, Z.neg m)%Z else (1, e, Z.pos m)%Z
  end.

Definition lex (a b : Z * Z * Z) : comparison :=
  match (fst (fst a) ?= fst (fst b))%Z with
  | Eq => match (snd (fst a) ?= snd (fst b))%Z with
          | Eq => (snd a ?= snd b)%Z
          | c => c
          end
  | c => c
  end.

Definition isNaN (x : spec_float) : bool :=
  match x with
  | S754_nan => true
  | _ => false
  end.

(** The key of a number. *)
Definition keyOf (x : float) : Z * Z * Z := key (Prim2SF x).

End FloatOrder.

(** ** The position watcher (lines 467-565) *)

Module Watcher.

(** The [coords] of a position sample; [accuracy] may be null. *)
Record Coords : Type := mkCoords {
  c_latitude : float;
  c_longitude : float;
  c_accuracy : option float
}.

(** A number used as a condition: 0, -0 and NaN are falsy. *)
Definition truthy (x : float) : bool := negb (is_zero x || is_nan x).

(** [coords.accuracy && coords.accuracy > 50], lines 475 and 526. *)
Definition inaccurate (accuracy : option float) : bool :=
  match accuracy with
  | Some a => truthy a && gtb a 50
  | None => false
  end.

Section WithHost.
Context {host : Host}.

(** The function handed to [setPath], lines 484-494 and 535-545. *)
Definition appendPoint (p : LatLng) (prev : list LatLng) : list LatLng :=
  if (length prev =? 0)%nat then [p]
  else
    match nth_error prev (length prev - 1) with
    | None => prev ++ [p]
    | Some last =>
        let dist := haversine last p in
        if gtb dist 100 then prev else prev ++ [p]
    end.

(** The position callback, lines 473-495 (web, [timestamp] is
    [pos.timestamp]) and 525-546 (native, [timestamp] is [Date.now()]). *)
Definition onPosition (coords : Coords) (timestamp : float)
    (path : list LatLng) : list LatLng :=
  if inaccurate (c_accuracy coords) then path
  else appendPoint (mkLatLng (c_latitude coords) (c_longitude coords) timestamp) path.

(** A path in which no point is more than 100 m from the one before it,
    as [haversine] measures it. *)
Definition hopsWithin100 (path : list LatLng) : Prop :=
  forall i p q,
    nth_error path i = Some p -> nth_error path (S i) = Some q ->
    gtb (haversine p q) 100 = false.

(** The path after a run of samples, each with its timestamp. *)
Definition watch (samples : list (Coords * float)) (path : list LatLng)
    : list LatLng :=
  fold_left (fun path s => onPosition (fst s) (snd s) path) samples path.

End WithHost.

End Watcher.

(** ** The background task ([services/backgroundLocation.ts], lines 17-95) *)

Module Background.


Section WithHost.
Context {host : Host}.





End WithHost.

End Background.

(** ** Sessions (lines 17-31) and their deletion (lines 1258-1340) *)

Module Sessions.

Record AchievementEarned : Type := mkAchievement {
  miles : float;
  imageUrl : string;
  earnedAt : float
}.

(** [Session]; the fields [id], [mode] and [path] carry a prefix. *)
Record Session : Type := mkSession {
  session_id : string;
  session_mode : ActivityMode;
  session_path : list LatLng;
  distanceMeters : float;
  startedAt : float;
  endedAt : float;
  achievements : option (list AchievementEarned)
}.

(** [t.owners.some((o) => o?.ownerId === ownerId)]. *)
Definition ownedBy (owner : string) (t : Territory) : bool :=
  existsb (Arbitration.isOwner owner) (owners t).

(** The test of line 1266: created within the session and owned by the
    user. *)
Definition capturedIn (session : Session) (owner : string) (t : Territory) : bool :=
  geb (createdAt t) (startedAt session)
  && (createdAt t <=? endedAt session)
  && ownedBy owner t.

(** The local part of [deleteSession], lines 1259-1269: the new values of
    [sessions] and [territories]. *)
Definition deleteSession (sessionId owner : string)
    (sessions : list Session) (territories : list Territory)
    : list Session * list Territory :=
  let session := find (fun s => String.eqb (session_id s) sessionId) sessions in
  let updated := filter (fun s => negb (String.eqb (session_id s) sessionId)) sessions in
  match session with
  | Some s => (updated, filter (fun t => negb (capturedIn s owner t)) territories)
  | None => (updated, territories)
  end.

(** The local part of [clearAllTerritories], lines 1326 and 1335. *)
Definition clearAllTerritories (owner : string) (territories : list Territory)
    : list Territory :=
  filter (fun t => negb (ownedBy owner t)) territories.

End Sessions.

(** ** The session life cycle (lines 764-811, 957-973, 1192-1256) *)

Module Lifecycle.
Import Sessions.

Inductive SessionState : Type := idle | active | paused.

Definition SessionState_eqb (a b : SessionState) : bool :=
  match a, b with
  | idle, idle | active, active | paused, paused => true
  | _, _ => false
  end.

(** The React state and refs that [start], [pause], [resume], [stop], the
    timer and the achievement effect write.  [provider] holds [path],
    [territories], [capturedLoopCount], [loopCaptured] and
    [lastCaptured]; subscriptions and the inactivity prompt are left
    out. *)
Record Tracker : Type := mkTracker {
  provider : ProviderState;
  state : SessionState;
  currentMode : option ActivityMode;
  distance : float;
  distanceRef : float;
  sessions : list Session;
  sessionStartAt : option float;
  pausedAccumMs : float;
  pauseStartedAt : option float;
  elapsedMs : float;
  stepCount : float;
  sessionStartSteps : float;
  sessionAchievements : list AchievementEarned;
  achievedMilestones : list float;
  locationPermissionDenied : bool;
  autoPaused : bool
}.

(** The initial values of lines 140-168 and 975-976, for the territories
    and sessions in place. *)
Definition initial (ts : list Territory) (ss : list Session) : Tracker :=
  mkTracker (mkState [] ts 0 false None) idle None 0 0 ss None 0 None 0 0 0
            [] [] false false.

(** [start(m)], lines 764-783; [now] is the value of [Date.now()]. *)
Definition start (m : ActivityMode) (now : float) (t : Tracker) : Tracker :=
  match state t with
  | idle =>
      mkTracker (mkState [] (territories (provider t)) 0 false None)
                active (Some m) 0 0 (sessions t) (Some now) 0 None 0 0 0
                [] [] false (autoPaused t)
  | _ => t
  end.

(** The failure branches of [startWatching], lines 505-518 and 548-563. *)
Definition watchFailed (t : Tracker) : Tracker :=
  mkTracker (provider t) idle None (distance t) (distanceRef t) (sessions t)
            (sessionStartAt t) (pausedAccumMs t) (pauseStartedAt t)
            (elapsedMs t) (stepCount t) (sessionStartSteps t)
            (sessionAchievements t) (achievedMilestones t) true (autoPaused t).

(** [pause()], lines 794-797. *)
Definition pause (now : float) (t : Tracker) : Tracker :=
  match state t with
  | active =>
      mkTracker (provider t) paused (currentMode t) (distance t) (distanceRef t)
                (sessions t) (sessionStartAt t) (pausedAccumMs t) (Some now)
                (elapsedMs t) (stepCount t) (sessionStartSteps t)
                (sessionAchievements t) (achievedMilestones t)
                (locationPermissionDenied t) (autoPaused t)
  | _ => t
  end.

(** A number or null used as a condition. *)
Definition present (x : option float) : bool :=
  match x with
  | Some v => Watcher.truthy v
  | None => false
  end.

(** [resume()], lines 957-971. *)
Definition resume (now : float) (t : Tracker) : Tracker :=
  match state t, currentMode t with
  | paused, Some _ =>
      let accum :=
        match pauseStartedAt t with
        | Some started =>
            if Watcher.truthy started
            then pausedAccumMs t + (now - started)
            else pausedAccumMs t
        | None => pausedAccumMs t
        end in
      mkTracker (provider t) active (currentMode t) (distance t) (distanceRef t)
                (sessions t) (sessionStartAt t) accum
                (if present (pauseStartedAt t) then None else pauseStartedAt t)
                (elapsedMs t) (stepCount t) (sessionStartSteps t)
                (sessionAchievements t) (achievedMilestones t)
                (locationPermissionDenied t) false
  | _, _ => t
  end.

(** [tick], lines 1194-1199. *)
Definition tick (now : float) (t : Tracker) : Tracker :=
  match state t, sessionStartAt t with
  | active, Some startedAt' =>
      if Watcher.truthy startedAt' then
        let base := now - startedAt' - pausedAccumMs t in
        mkTracker (provider t) (state t) (currentMode t) (distance t)
                  (distanceRef t) (sessions t) (sessionStartAt t)
                  (pausedAccumMs t) (pauseStartedAt t)
                  (if gtb base 0 then base else 0)
                  (stepCount t) (sessionStartSteps t)
                  (sessionAchievements t) (achievedMilestones t)
                  (locationPermissionDenied t) (autoPaused t)
      else t
  | _, _ => t
  end.

(** [startPedometer], lines 418-443, called by [start] and [resume] in the
    modes walk and run: [available] tells that the platform is not the
    web and that [Pedometer.isAvailableAsync()] answered true. *)
Definition startPedometer (available : bool) (t : Tracker) : Tracker :=
  if available then
    mkTracker (provider t) (state t) (currentMode t) (distance t) (distanceRef t)
              (sessions t) (sessionStartAt t) (pausedAccumMs t) (pauseStartedAt t)
              (elapsedMs t) 0 (sessionStartSteps t)
              (sessionAchievements t) (achievedMilestones t)
              (locationPermissionDenied t) (autoPaused t)
  else t.

(** The pedometer callback of lines 436-439. *)
Definition onSteps (steps : float) (t : Tracker) : Tracker :=
  mkTracker (provider t) (state t) (currentMode t) (distance t) (distanceRef t)
            (sessions t) (sessionStartAt t) (pausedAccumMs t) (pauseStartedAt t)
            (elapsedMs t) (stepCount t + steps) (sessionStartSteps t)
            (sessionAchievements t) (achievedMilestones t)
            (locationPermissionDenied t) (autoPaused t).

(** [MaxSpeedMps] of [constants/game]. *)
Definition MaxSpeedMps (m : ActivityMode) : float :=
  match m with
  | walk => 3
  | run => 7
  | cycle => 15
  end.

Section WithHost.
Context {host : Host}.

(** The template literal [`${endedAt}`] of line 1230. *)
Variable numberToString : float -> string.

(** The session built by [stop], lines 1224-1237.  [seen] is the value of
    [sessionAchievements] the callback holds: it is not among the
    dependencies of line 1256, so the callback keeps the value of the
    render in which one of its dependencies last changed. *)
Definition sessionOf (endedAt' : float) (seen : list AchievementEarned)
    (t : Tracker) : Session :=
  let startedAt' :=
    match sessionStartAt t with
    | Some s => s
    | None =>
        match nth_error (path (provider t)) 0 with
        | Some p => timestamp p
        | None => endedAt'
        end
    end in
  let m := match currentMode t with Some m => m | None => walk end in
  mkSession (numberToString endedAt') m (path (provider t))
            (Math_round (distance t)) startedAt' endedAt'
            (if (0 <? length seen)%nat then Some seen else None).

(** [stop()], lines 1208-1252; [endedAt'] is the value of [Date.now()]. *)
Definition stop (endedAt' : float) (seen : list AchievementEarned)
    (t : Tracker) : Tracker :=
  match state t with
  | idle => t
  | _ =>
      mkTracker (mkState [] (territories (provider t))
                         (capturedLoopCount (provider t))
                         (loopCaptured (provider t))
                         (lastCaptured (provider t)))
                idle None 0 (distanceRef t)
                (sessionOf endedAt' seen t :: sessions t)
                None 0 None 0 0 0 [] []
                (locationPermissionDenied t) (autoPaused t)
  end.

(** The position callback and the loop-detection effect, on the path and
    the territories of the tracker. *)
Definition position (coords : Watcher.Coords) (timestamp' : float) (t : Tracker)
    : Tracker :=
  let p := provider t in
  mkTracker (mkState (Watcher.onPosition coords timestamp' (path p))
                     (territories p) (capturedLoopCount p) (loopCaptured p)
                     (lastCaptured p))
            (state t) (currentMode t) (distance t) (distanceRef t) (sessions t)
            (sessionStartAt t) (pausedAccumMs t) (pauseStartedAt t)
            (elapsedMs t) (stepCount t) (sessionStartSteps t)
            (sessionAchievements t) (achievedMilestones t)
            (locationPermissionDenied t) (autoPaused t).

Definition loopEffect (owner newId : string) (now : float) (t : Tracker) : Tracker :=
  mkTracker (LoopDetector.loopDetectionEffect (currentMode t) owner newId now
               (provider t))
            (state t) (currentMode t) (distance t) (distanceRef t) (sessions t)
            (sessionStartAt t) (pausedAccumMs t) (pauseStartedAt t)
            (elapsedMs t) (stepCount t) (sessionStartSteps t)
            (sessionAchievements t) (achievedMilestones t)
            (locationPermissionDenied t) (autoPaused t).

(** The distance bookkeeping of the same effect, lines 1001-1046, without
    the inactivity timer. *)
Definition distanceEffect (t : Tracker) : Tracker :=
  match currentMode t with
  | None => t
  | Some m =>
      if (length (path (provider t)) <? 2)%nat then t
      else
        let smoothed := smoothPath (path (provider t)) 3 in
        let last := at_index smoothed (length smoothed - 1) in
        let prev := at_index smoothed (length smoothed - 2) in
        let dt := Math_max 1 ((timestamp last - timestamp prev) / 1000) in
        let d := haversine prev last in
        let speed := d / dt in
        let max := MaxSpeedMps m in
        let write (ref shown : float) :=
          mkTracker (provider t) (state t) (currentMode t) shown ref
                    (sessions t) (sessionStartAt t) (pausedAccumMs t)
                    (pauseStartedAt t) (elapsedMs t) (stepCount t)
                    (sessionStartSteps t) (sessionAchievements t)
                    (achievedMilestones t) (locationPermissionDenied t)
                    (autoPaused t) in
        match m with
        | walk | run =>
            let avgStrideLengthM := match m with walk => 0.762 | _ => 0.914 end in
            let distanceFromSteps := stepCount t * avgStrideLengthM in
            write distanceFromSteps distanceFromSteps
        | cycle =>
            if speed <=? max * 1.5
            then write (distanceRef t + d) (distanceRef t + d)
            else t
        end
  end.

End WithHost.

End Lifecycle.

(** ** Awards ([constants/awards.ts]) and the achievement effect (lines 978-999) *)

Module Achievements.
Import Sessions Lifecycle.

Record Award : Type := mkAward {
  award_miles : float;
  award_imageUrl : string
}.

Definition CycleAwards : list Award :=
  [ mkAward 1 "https://pub-e001eb4506b145aa938b5d3badbff6a5.r2.dev/attachments/8gz96rcj2u8vnlez5bnt9";
    mkAward 7 "https://pub-e001eb4506b145aa938b5d3badbff6a5.r2.dev/attachments/tx0tz7fx8p5rttpk1v4hs";
    mkAward 10 "https://pub-e001eb4506b145aa938b5d3badbff6a5.r2.dev/attachments/1b0ypzewlhjzaxjx5iglc";
    mkAward 15 "https://pub-e001eb4506b145aa938b5d3badbff6a5.r2.dev/attachments/djh7vcb0hszal8tjp9p2m";
    mkAward 20 "https://pub-e001eb4506b145aa938b5d3badbff6a5.r2.dev/attachments/6ja4w4mx1p1dmz6vqerdn";
    mkAward 25 "https://pub-e001eb4506b145aa938b5d3badbff6a5.r2.dev/attachments/gul37f9zyxn49ia3kz3mx";
    mkAward 30 "https://pub-e001eb4506b145aa938b5d3badbff6a5.r2.dev/attachments/ukw4nx3rbsqg86692vvzy";
    mkAward 40 "https://pub-e001eb4506b145aa938b5d3badbff6a5.r2.dev/attachments/m7zq8ala9omxcq2eicwsp" ].

Definition WalkingAwards : list Award :=
  [ mkAward 1 "https://images.unsplash.com/photo-1520975922203-bc4c4ad6a6d6?q=80&w=1600&auto=format&fit=crop";
    mkAward 3 "https://images.unsplash.com/photo-1488646953014-85cb44e25828?q=80&w=1600&auto=format&fit=crop";
    mkAward 5 "https://images.unsplash.com/photo-1501785888041-af3ef285b470?q=80&w=1600&auto=format&fit=crop";
    mkAward 7 "https://images.unsplash.com/photo-1500530855697-b586d89ba3ee?q=80&w=1600&auto=format&fit=crop";
    mkAward 10 "https://images.unsplash.com/photo-1500534314209-a25ddb2bd429?q=80&w=1600&auto=format&fit=crop";
    mkAward 12 "https://images.unsplash.com/photo-1500534623283-312aade485b7?q=80&w=1600&auto=format&fit=crop";
    mkAward 15 "https://images.unsplash.com/photo-1469474968028-56623f02e42e?q=80&w=1600&auto=format&fit=crop";
    mkAward 17 "https://images.unsplash.com/photo-1500534623283-312aade485b7?q=80&w=1600&auto=format&fit=crop";
    mkAward 20 "https://images.unsplash.com/photo-1500530855697-b586d89ba3ee?q=80&w=1600&auto=format&fit=crop" ].

Definition RunningAwards : list Award :=
  [ mkAward 1 "https://pub-e001eb4506b145aa938b5d3badbff6a5.r2.dev/attachments/8gz96rcj2u8vnlez5bnt9";
    mkAward 3 "https://images.unsplash.com/photo-1488646953014-85cb44e25828?q=80&w=1600&auto=format&fit=crop";
    mkAward 5 "https://images.unsplash.com/photo-1501785888041-af3ef285b470?q=80&w=1600&auto=format&fit=crop";
    mkAward 7 "https://pub-e001eb4506b145aa938b5d3badbff6a5.r2.dev/attachments/tx0tz7fx8p5rttpk1v4hs";
    mkAward 10 "https://pub-e001eb4506b145aa938b5d3badbff6a5.r2.dev/attachments/1b0ypzewlhjzaxjx5iglc";
    mkAward 13 "https://pub-e001eb4506b145aa938b5d3badbff6a5.r2.dev/attachments/djh7vcb0hszal8tjp9p2m";
    mkAward 20 "https://pub-e001eb4506b145aa938b5d3badbff6a5.r2.dev/attachments/6ja4w4mx1p1dmz6vqerdn";
    mkAward 25 "https://pub-e001eb4506b145aa938b5d3badbff6a5.r2.dev/attachments/gul37f9zyxn49ia3kz3mx";
    mkAward 30 "https://pub-e001eb4506b145aa938b5d3badbff6a5.r2.dev/attachments/ukw4nx3rbsqg86692vvzy";
    mkAward 35 "https://pub-e001eb4506b145aa938b5d3badbff6a5.r2.dev/attachments/m7zq8ala9omxcq2eicwsp";
    mkAward 40 "https://pub-e001eb4506b145aa938b5d3badbff6a5.r2.dev/attachments/m7zq8ala9omxcq2eicwsp" ].

(** The table chosen at lines 982-985. *)
Definition awardList (m : ActivityMode) : list Award :=
  match m with
  | walk => WalkingAwards
  | run => RunningAwards
  | cycle => CycleAwards
  end.

(** The equality of [Set.prototype.has] on numbers (SameValueZero): NaN
    equals NaN, and 0 equals -0. *)
Definition sameValueZero (x y : float) : bool :=
  (x =? y) || (is_nan x && is_nan y).

(** [achievedMilestonesRef.current.has(x)]. *)
Definition has (set : list float) (x : float) : bool :=
  existsb (fun y => sameValueZero y x) set.

(** One iteration of the loop of lines 987-998; [now award] is the value
    of [Date.now()] read when [award] is earned. *)
Definition earn (currentMiles : float) (now : Award -> float)
    (acc : list float * list AchievementEarned) (award : Award)
    : list float * list AchievementEarned :=
  if geb currentMiles (award_miles award) && negb (has (fst acc) (award_miles award))
  then (fst acc ++ [award_miles award],
        snd acc ++ [mkAchievement (award_miles award) (award_imageUrl award)
                                  (now award)])
  else acc.

(** The effect, lines 978-999, for the current [distance]. *)
Definition effect (now : Award -> float) (t : Tracker) : Tracker :=
  match state t, currentMode t with
  | active, Some m =>
      let currentMiles := distance t / 1609.344 in
      let acc := fold_left (earn currentMiles now) (awardList m)
                           (achievedMilestones t, sessionAchievements t) in
      mkTracker (provider t) (state t) (currentMode t) (distance t)
                (distanceRef t) (sessions t) (sessionStartAt t)
                (pausedAccumMs t) (pauseStartedAt t) (elapsedMs t)
                (stepCount t) (sessionStartSteps t)
                (snd acc) (fst acc)
                (locationPermissionDenied t) (autoPaused t)
  | _, _ => t
  end.

(** Milestones that are pairwise different for [has]. *)
Definition distinctMiles (set : list float) : Prop :=
  forall i j x y, (i < j)%nat ->
    nth_error set i = Some x -> nth_error set j = Some y ->
    sameValueZero x y = false.

(** An achievement that is a row of the table of mode [m]. *)
Definition fromTable (m : ActivityMode) (a : AchievementEarned) : Prop :=
  exists award, In award (awardList m)
    /\ miles a = award_miles award /\ imageUrl a = award_imageUrl award.

(** What the loop of the effect keeps, on the set of milestones and the
    list of achievements. *)
Definition kept (m : ActivityMode) (acc : list float * list AchievementEarned) : Prop :=
  map miles (snd acc) = fst acc
  /\ distinctMiles (fst acc)
  /\ Forall (fromTable m) (snd acc).

(** The invariant of the achievements of a tracker. *)
Definition awarded (t : Tracker) : Prop :=
  map miles (sessionAchievements t) = achievedMilestones t
  /\ distinctMiles (achievedMilestones t)
  /\ forall m, currentMode t = Some m -> Forall (fromTable m) (sessionAchievements t).

End Achievements.

(** ** Runs of the tracker *)

Module Run.
Import Sessions Lifecycle.

(** What the effects and the callbacks of the platform leave alone. *)
Definition sameSession (t t' : Tracker) : Prop :=
  state t' = state t /\ currentMode t' = currentMode t
  /\ sessionStartAt t' = sessionStartAt t /\ sessions t' = sessions t.

(** A tracker whose mode is set exactly when its state is not idle, and
    whose start time is set whenever it is not. *)
Definition started (t : Tracker) : Prop :=
  (state t = idle <-> currentMode t = None)
  /\ (state t <> idle -> exists s, sessionStartAt t = Some s).

Section WithHost.
Context {host : Host}.
Variable numberToString : float -> string.

(** What can happen to a tracker: the calls of the user, the callbacks of
    the platform and the runs of the effects. *)
Inductive Event : Type :=
| Start (m : ActivityMode) (now : float)
| WatchFailed
| StartPedometer (available : bool)
| Steps (steps : float)
| Pause (now : float)
| Resume (now : float)
| Stop (now : float) (seen : list AchievementEarned)
| Tick (now : float)
| Position (coords : Watcher.Coords) (timestamp' : float)
| DistanceEffect
| LoopEffect (owner newId : string) (now : float)
| AchievementEffect (now : Achievements.Award -> float).

Definition step (t : Tracker) (e : Event) : Tracker :=
  match e with
  | Start m now => start m now t
  | WatchFailed => watchFailed t
  | StartPedometer available => startPedometer available t
  | Steps steps => onSteps steps t
  | Pause now => pause now t
  | Resume now => resume now t
  | Stop now seen => stop numberToString now seen t
  | Tick now => tick now t
  | Position c ts => position c ts t
  | DistanceEffect => distanceEffect t
  | LoopEffect owner newId now => loopEffect owner newId now t
  | AchievementEffect now => Achievements.effect now t
  end.

Definition runEvents (events : list Event) (t : Tracker) : Tracker :=
  fold_left step events t.

End WithHost.

End Run.

(** ** The leaderboard ([app/(tabs)/leaderboard/index.tsx], lines 13-205) *)

Module Leaderboard.

(** [PlayerStats] of lines 39-46, without the nickname, the avatar and
    the colour, which no number depends on. *)
Record PlayerStats : Type := mkStats {
  stats_ownerId : string;
  totalSquareMiles : float;
  territoryCount : float
}.

Definition metersSquaredToSquareMiles (m2 : float) : float := m2 / 2589988.11.

Definition ActivityMode_eqb (a b : ActivityMode) : bool :=
  match a, b with
  | walk, walk | run, run | cycle, cycle => true
  | _, _ => false
  end.

(** The filter of lines 141-147; [modeFilter] is [None] for ["all"]. *)
Definition inPeriod (periodStart : float) (modeFilter : option ActivityMode)
    (t : Territory) : bool :=
  if createdAt t <? periodStart then false
  else
    match modeFilter with
    | Some m => if negb (ActivityMode_eqb (mode t) m) then false else true
    | None => true
    end.

(** [statsMap], a Map: its entries in insertion order, [statsMap.has(k)]
    and the update of the entry that [statsMap.get(k)] returns. *)
Definition has (k : string) (statsMap : list PlayerStats) : bool :=
  existsb (fun s => String.eqb (stats_ownerId s) k) statsMap.

Fixpoint update (k : string) (f : PlayerStats -> PlayerStats)
    (statsMap : list PlayerStats) : list PlayerStats :=
  match statsMap with
  | [] => []
  | s :: rest =>
      if String.eqb (stats_ownerId s) k then f s :: rest
      else s :: update k f rest
  end.

Section WithHost.
Context {host : Host}.

(** The body of [territory.owners.forEach], lines 158-193. *)
Definition credit (areaM2 : float) (statsMap : list PlayerStats)
    (owner : TerritoryOwner) : list PlayerStats :=
  let statsMap :=
    if has (ownerId owner) statsMap then statsMap
    else statsMap ++ [mkStats (ownerId owner) 0 0] in
  let weightedArea := areaM2 * strength owner in
  update (ownerId owner)
         (fun stats => mkStats (stats_ownerId stats)
                         (totalSquareMiles stats
                          + metersSquaredToSquareMiles weightedArea)
                         (territoryCount stats + 1))
         statsMap.

(** The body of [filteredTerritories.forEach], lines 153-194;
    [polygonAreaM2] of lines 22-33 is a copy of the provider's. *)
Definition addTerritory (statsMap : list PlayerStats) (territory : Territory)
    : list PlayerStats :=
  if (length (polygon territory) <? 3)%nat then statsMap
  else fold_left (credit (polygonAreaM2 (polygon territory))) (owners territory)
                 statsMap.

(** [Array.from(statsMap.values())] of line 196, before it is sorted and
    cut to ten entries; [periodStart] is the value of
    [getStartOfPeriod(selectedPeriod)]. *)
Definition playerStats (ownerId' nickname ownerColor : string)
    (periodStart : float) (modeFilter : option ActivityMode)
    (territories : list Territory) : list PlayerStats :=
  if String.eqb ownerId' "" then []
  else if String.eqb nickname "" then []
  else if String.eqb ownerColor "" then []
  else fold_left addTerritory (filter (inPeriod periodStart modeFilter) territories) [].

End WithHost.

End Leaderboard.

(** ** More concrete runs *)

Module Fixtures2.
Import Fixtures Watcher Sessions Lifecycle.

(** The sample for a point, with an accuracy. *)
Definition sampleOf (accuracy : option float) (p : LatLng) : Coords * float :=
  (mkCoords (latitude p) (longitude p) accuracy, timestamp p).

(** The walk [walk14] as samples of accuracy 5 m, with a sample of
    accuracy 80 m and a jump of about 1.1 km in the middle. *)
Definition samples16 : list (Coords * float) :=
  map (sampleOf (Some 5)) (firstn 6 walk14)
  ++ [sampleOf (Some 80) (pt 0.5 0 16); sampleOf None (pt 100 0 17)]
  ++ map (sampleOf (Some 5)) (skipn 6 walk14).

(** The text of the one time at which the runs below are stopped. *)
Definition stamp (endedAt' : float) : string := "1700000100000".

(** A walk of 2200 steps with two positions, up to the first update of
    the distance. *)
Definition stroll : list Run.Event :=
  [ Run.Start walk 1700000000000;
    Run.StartPedometer true;
    Run.Steps 2200;
    Run.Position (mkCoords (-0.001) 0 (Some 5)) 1700000000000;
    Run.Position (mkCoords (-0.0008) 0 (Some 5)) 1700000003000;
    Run.DistanceEffect ].

End Fixtures2.

Import Fixtures.

(** * Properties *)

(** ** Loops *)

Section Loops.
Variable A : Type.

Lemma for_range_push_length (f : nat -> A) (count lo : nat) (acc : list A) :
  length (for_range count lo (fun i out => out ++ [f i]) acc)
  = (length acc + count)%nat.
Proof.
  revert lo acc.
  induction count as [|count IH]; intros lo acc; simpl.
  - lia.
  - rewrite IH, length_app. simpl. lia.
Qed.

(** A [for] loop with [break] returns the result of the first index, in
    increasing order, whose body breaks. *)
Lemma for_break_some (body : nat -> option A) (count lo : nat) (r : A) :
  for_break count lo body = Some r <->
  exists i, (lo <= i < lo + count)%nat /\ body i = Some r
            /\ forall k, (lo <= k < i)%nat -> body k = None.
Proof.
  revert lo.
  induction count as [|count IH]; intros lo; simpl.
  - split; [discriminate|]. intros (i & Hi & _). lia.
  - destruct (body lo) as [r0|] eqn:Hlo.
    + split.
      * intros H. exists lo. repeat split; try lia. congruence.
      * intros (i & Hi & Hb & Hk).
        destruct (Nat.eq_dec i lo) as [->|Hne]; [congruence|].
        rewrite (Hk lo) in Hlo by lia. discriminate.
    + rewrite IH. split.
      * intros (i & Hi & Hb & Hk). exists i. repeat split; try lia; auto.
        intros k Hk'. destruct (Nat.eq_dec k lo) as [->|]; auto.
        apply Hk. lia.
      * intros (i & Hi & Hb & Hk).
        assert (i <> lo) by congruence.
        exists i. repeat split; try lia; auto.
        intros k Hk'. apply Hk. lia.
Qed.

Lemma for_break_none (body : nat -> option A) (count lo : nat) :
  for_break count lo body = None <->
  forall i, (lo <= i < lo + count)%nat -> body i = None.
Proof.
  revert lo.
  induction count as [|count IH]; intros lo; simpl.
  - split; auto. intros _ i Hi. lia.
  - destruct (body lo) as [r0|] eqn:Hlo.
    + split; [discriminate|]. intros H. rewrite H in Hlo by lia. discriminate.
    + rewrite IH. split.
      * intros H i Hi. destruct (Nat.eq_dec i lo) as [->|]; auto.
        apply H. lia.
      * intros H i Hi. apply H. lia.
Qed.

Lemma Forall_prefix (P : A -> Prop) (k : nat) (l : list A) :
  Forall P l -> Forall P (firstn k l).
Proof.
  intros H. apply Forall_forall. intros x Hx.
  rewrite Forall_forall in H. apply H.
  rewrite <- (firstn_skipn k l). apply in_or_app. left. exact Hx.
Qed.

End Loops.

(** ** Numbers *)

Module Numbers.

(** [Math.min(2, x)] is never above [2], whatever [x] is. *)
Lemma Math_min_2_bound (x : float) : gtb (Math_min 2 x) 2 = false.
Proof.
  unfold gtb, Math_min.
  destruct (is_nan 2 || is_nan x); [reflexivity|].
  destruct (2 <? x) eqn:H2x; [reflexivity|].
  destruct (x <? 2); [exact H2x|].
  change (get_sign 2) with false. cbv iota. exact H2x.
Qed.

Lemma abs_opp (s : float) : Math_abs (- s) = Math_abs s.
Proof.
  unfold Math_abs. apply Prim2SF_inj. rewrite !abs_spec, opp_spec.
  destruct (Prim2SF s); reflexivity.
Qed.

Lemma sign_clear_not_below_zero (x : spec_float) :
  sign_clear x = true -> SFltb x (S754_zero false) = false.
Proof.
  destruct x as [s|s| |s m e]; try destruct s; simpl; intros H;
    try reflexivity; discriminate H.
Qed.

Lemma binary_round_aux_sign (p em mz ez : Z) (lz : location) :
  sign_clear (binary_round_aux p em false mz ez lz) = true.
Proof.
  unfold binary_round_aux.
  destruct (shr_fexp p em mz ez lz) as [m1 e1].
  destruct (shr_fexp _ _ _ _ _) as [m2 e2].
  destruct (shr_m m2); try reflexivity.
  destruct (_ <=? _)%Z; reflexivity.
Qed.

(** [Math.abs(x) / 2] is never negative. *)
Lemma half_abs_not_negative (x : float) : (Math_abs x / 2 <? 0) = false.
Proof.
  unfold Math_abs.
  rewrite ltb_spec, div_spec, abs_spec.
  change (Prim2SF 0) with (S754_zero false).
  apply sign_clear_not_below_zero.
  remember (Prim2SF 2) as two eqn:E. vm_compute in E. subst two.
  destruct (Prim2SF x) as [s|s| |s m e]; try reflexivity.
  unfold SF64div, SFdiv, SFabs.
  destruct (SFdiv_core_binary _ _ _ _ _ _) as [[mz ez] lz].
  simpl xorb. apply binary_round_aux_sign.
Qed.

End Numbers.

(** ** Smoothing *)

Lemma smoothPath_length (host : Host) (points : list LatLng) (windowSize : float) :
  length (smoothPath points windowSize) = length points.
Proof.
  unfold smoothPath.
  destruct (length points <=? 2)%nat; [reflexivity|].
  rewrite for_range_push_length. reflexivity.
Qed.

Lemma smoothPath_short (host : Host) (points : list LatLng) (windowSize : float) :
  (length points <= 2)%nat -> smoothPath points windowSize = points.
Proof.
  intros H. unfold smoothPath.
  apply Nat.leb_le in H. rewrite H. reflexivity.
Qed.

(** C8. For every input path and window size, [smoothPath] returns a
    sequence of exactly the length of its input, and a path of length 2 or
    less is returned as it is. *)
Theorem smoothPath_preserves_length
    (host : Host) (points : list LatLng) (windowSize : float) :
  length (smoothPath points windowSize) = length points
  /\ ((length points <= 2)%nat -> smoothPath points windowSize = points).
Proof.
  split.
  - apply smoothPath_length.
  - apply smoothPath_short.
Qed.

(** ** Polygon area *)

Lemma polygonAreaM2_short (host : Host) (poly : list LatLng) :
  (length poly < 3)%nat -> polygonAreaM2 poly = 0.
Proof.
  intros H. unfold polygonAreaM2.
  apply Nat.ltb_lt in H. rewrite H. reflexivity.
Qed.

Lemma polygonAreaM2_not_negative (host : Host) (poly : list LatLng) :
  (polygonAreaM2 poly <? 0) = false.
Proof.
  unfold polygonAreaM2.
  destruct (length poly <? 3)%nat; [reflexivity|].
  apply Numbers.half_abs_not_negative.
Qed.

(** C7, as the engine has it. A polygon of fewer than 3 points has area
    exactly 0; the area of any polygon is never negative; and for 3 points
    or more it is half the absolute value of the shoelace sum of the points
    projected from the latitude of the FIRST point, a value that a sum of
    the opposite sign would give as well. *)
Theorem polygonAreaM2_anchored_at_first_point
    (host : Host) (poly : list LatLng) :
  ((length poly < 3)%nat -> polygonAreaM2 poly = 0)
  /\ (polygonAreaM2 poly <? 0) = false
  /\ ((3 <= length poly)%nat ->
      let signed := shoelace (map (toMetersXY (latitude (at_index poly 0))) poly) in
      polygonAreaM2 poly = Math_abs signed / 2
      /\ polygonAreaM2 poly = Math_abs (- signed) / 2).
Proof.
  split; [apply polygonAreaM2_short|].
  split; [apply polygonAreaM2_not_negative|].
  intros Hlen signed. rewrite Numbers.abs_opp.
  unfold polygonAreaM2.
  destruct (length poly <? 3)%nat eqn:E.
  - apply Nat.ltb_lt in E. lia.
  - split; reflexivity.
Qed.

(** C7, reversed points: on the reference host the triangle [triangle45]
    and the same triangle with its points reversed have different areas,
    about 4381.24 and 4381.17 square metres, because reversing the points
    moves the projection origin from latitude 45 to latitude 45.001. *)
Lemma polygonAreaM2_reversal_differs :
  (@polygonAreaM2 Reference.host (rev triangle45)
     <? @polygonAreaM2 Reference.host triangle45) = true
  /\ (@polygonAreaM2 Reference.host triangle45 - 0.08
        <? @polygonAreaM2 Reference.host (rev triangle45)) = true
  /\ (4381 <? @polygonAreaM2 Reference.host (rev triangle45)) = true.
Proof. vm_compute. repeat split. Qed.

(** ** Ownership arbitration *)

Import Arbitration.

Section UpdaterFacts.
Variables (claimant : string) (newPolygon : list LatLng).

Lemma visit_visited (st : Loop) (t : Territory) :
  visited (visit claimant newPolygon st t)
  = visited st ++ [settled claimant newPolygon t].
Proof.
  unfold visit, settled.
  destruct (bboxesOverlap (polygon t) newPolygon); [|reflexivity].
  destruct (arbitrateOwners claimant (owners t)) as [os pushed]. reflexivity.
Qed.

Lemma visit_overlapped (st : Loop) (t : Territory) :
  overlappedExistingTerritories (visit claimant newPolygon st t)
  = overlappedExistingTerritories st || bboxesOverlap (polygon t) newPolygon.
Proof.
  unfold visit.
  destruct (bboxesOverlap (polygon t) newPolygon).
  - destruct (arbitrateOwners claimant (owners t)) as [os pushed].
    simpl. rewrite orb_true_r. reflexivity.
  - simpl. rewrite orb_false_r. reflexivity.
Qed.

Lemma fold_visit_visited (prev : list Territory) (st : Loop) :
  visited (fold_left (visit claimant newPolygon) prev st)
  = visited st ++ map (settled claimant newPolygon) prev.
Proof.
  revert st. induction prev as [|t prev IH]; intros st; simpl.
  - rewrite app_nil_r. reflexivity.
  - rewrite IH, visit_visited, <- app_assoc. reflexivity.
Qed.

Lemma fold_visit_overlapped (prev : list Territory) (st : Loop) :
  overlappedExistingTerritories (fold_left (visit claimant newPolygon) prev st)
  = overlappedExistingTerritories st
    || existsb (fun t => bboxesOverlap (polygon t) newPolygon) prev.
Proof.
  revert st. induction prev as [|t prev IH]; intros st; simpl.
  - rewrite orb_false_r. reflexivity.
  - rewrite IH, visit_overlapped, orb_assoc. reflexivity.
Qed.

Lemma settled_miss (prev : list Territory) :
  Forall (fun t => bboxesOverlap (polygon t) newPolygon = false) prev ->
  map (settled claimant newPolygon) prev = prev.
Proof.
  induction 1 as [|t prev Ht _ IH]; simpl; [reflexivity|].
  unfold settled at 1. rewrite Ht, IH. reflexivity.
Qed.

Lemma existsb_miss (prev : list Territory) :
  Forall (fun t => bboxesOverlap (polygon t) newPolygon = false) prev ->
  existsb (fun t => bboxesOverlap (polygon t) newPolygon) prev = false.
Proof.
  induction 1 as [|t prev Ht _ IH]; simpl; [reflexivity|].
  rewrite Ht, IH. reflexivity.
Qed.

Lemma existsb_hit (prev : list Territory) :
  Exists (fun t => bboxesOverlap (polygon t) newPolygon = true) prev ->
  existsb (fun t => bboxesOverlap (polygon t) newPolygon) prev = true.
Proof.
  induction 1 as [t prev Ht|t prev _ IH]; simpl.
  - rewrite Ht. reflexivity.
  - rewrite IH, orb_true_r. reflexivity.
Qed.

End UpdaterFacts.

Lemma updater_map (claimant : string) (newTerr : Territory) (prev : list Territory) :
  updater claimant newTerr prev
  = if existsb (fun t => bboxesOverlap (polygon t) (polygon newTerr)) prev
    then map (settled claimant (polygon newTerr)) prev
    else newTerr :: map (settled claimant (polygon newTerr)) prev.
Proof.
  unfold updater, runLoop.
  rewrite fold_visit_overlapped, fold_visit_visited. simpl.
  destruct (existsb _ prev); reflexivity.
Qed.

Lemma updater_nth (claimant : string) (newTerr : Territory)
    (prev : list Territory) (k : nat) (t : Territory) :
  nth_error prev k = Some t ->
  bboxesOverlap (polygon t) (polygon newTerr) = true ->
  nth_error (updater claimant newTerr prev) k
  = Some (withOwners t (fst (arbitrateOwners claimant (owners t)))).
Proof.
  intros Hk Hov. rewrite updater_map.
  assert (Hex : existsb (fun t => bboxesOverlap (polygon t) (polygon newTerr)) prev
                = true).
  { apply existsb_exists. exists t. split; [|exact Hov].
    apply (nth_error_In prev k). exact Hk. }
  rewrite Hex, nth_error_map, Hk. simpl. unfold settled. rewrite Hov. reflexivity.
Qed.

(** C4. A capture whose polygon misses the bounding box of every stored
    territory puts exactly one territory, owned by the claimant alone with
    strength 1.0, in front of the store and leaves the stored ones as they
    were; if the bounding box of at least one stored territory overlaps,
    no territory is added: the store keeps its length and order, the
    overlapping territories have their owners arbitrated, and the others
    are left as they were. *)
Theorem updater_inserts_iff_no_overlap
    (claimant newId : string) (m : ActivityMode) (poly : list LatLng)
    (now : float) (prev : list Territory) :
  let newTerr := LoopDetector.newTerritory newId m poly now claimant in
  (Forall (fun t => bboxesOverlap (polygon t) poly = false) prev ->
     updater claimant newTerr prev = newTerr :: prev
     /\ owners newTerr = [mkOwner claimant 1.0])
  /\ (Exists (fun t => bboxesOverlap (polygon t) poly = true) prev ->
      length (updater claimant newTerr prev) = length prev
      /\ forall k t, nth_error prev k = Some t ->
           nth_error (updater claimant newTerr prev) k
           = Some (if bboxesOverlap (polygon t) poly
                   then withOwners t (fst (arbitrateOwners claimant (owners t)))
                   else t)).
Proof.
  intros newTerr. split.
  - intros Hmiss. split; [|reflexivity].
    rewrite updater_map. simpl polygon.
    rewrite existsb_miss, settled_miss by exact Hmiss. reflexivity.
  - intros Hhit. rewrite updater_map. simpl polygon.
    rewrite existsb_hit by exact Hhit. split.
    + apply length_map.
    + intros k t Hk. rewrite nth_error_map, Hk. reflexivity.
Qed.

(** *** The owners array of one overlapping territory *)

#[local] Arguments isOwner : simpl never.

Lemma isOwner_self (a : string) (s : float) : isOwner a (mkOwner a s) = true.
Proof. unfold isOwner. simpl. apply String.eqb_refl. Qed.

Lemma isOwner_other (a b : string) (s : float) :
  a <> b -> isOwner b (mkOwner a s) = false.
Proof. intros H. unfold isOwner. simpl. apply String.eqb_neq. exact H. Qed.

Lemma isOwner_eq (c : string) (o : TerritoryOwner) :
  isOwner c o = true -> ownerId o = c.
Proof. unfold isOwner. apply String.eqb_eq. Qed.

(** Exclusive strengthening, lines 1117-1120. *)
Lemma arbitrate_sole (a : string) (s : float) :
  arbitrateOwners a [mkOwner a s] = ([mkOwner a (Math_min 2 (s + 0.2))], true).
Proof.
  unfold arbitrateOwners. simpl. rewrite isOwner_self. reflexivity.
Qed.

(** Contested entry, lines 1121-1124, against one holder. *)
Lemma arbitrate_entry (a b : string) (s : float) :
  a <> b ->
  arbitrateOwners b [mkOwner a s] = ([mkOwner a s; mkOwner b 0.5], true).
Proof.
  intros H. unfold arbitrateOwners. simpl.
  rewrite (isOwner_other a b s H). reflexivity.
Qed.

(** Contesting increment and claim-over, lines 1125-1137, against one
    holder. *)
Lemma arbitrate_contest (a b : string) (sa sb : float) :
  a <> b ->
  arbitrateOwners b [mkOwner a sa; mkOwner b sb]
  = (if geb (sb + 0.5) 1 && gtb (sb + 0.5) (totalStrength [mkOwner a sa])
     then [mkOwner b 1]
     else [mkOwner a sa; mkOwner b (sb + 0.5)], true).
Proof.
  intros H. unfold arbitrateOwners. simpl.
  rewrite (isOwner_other a b sa H), isOwner_self. simpl.
  destruct (geb (sb + 0.5) 1); simpl; [|reflexivity].
  destruct (gtb (sb + 0.5) (totalStrength [mkOwner a sa])); reflexivity.
Qed.

Section OneTerritory.
Variables (name : string) (m : ActivityMode) (poly : list LatLng) (created : float).

(** The stored territory, as a function of its owners array. *)
Let T : list TerritoryOwner -> Territory := mkTerritory name m poly created.

Lemma updater_T (claimant : string) (newTerr : Territory)
    (prev : list Territory) (k : nat) (os : list TerritoryOwner) :
  nth_error prev k = Some (T os) ->
  bboxesOverlap poly (polygon newTerr) = true ->
  nth_error (updater claimant newTerr prev) k
  = Some (T (fst (arbitrateOwners claimant os))).
Proof. intros Hk Hov. apply (updater_nth claimant newTerr prev k (T os) Hk Hov). Qed.

(** [k] strengthenings of a strength [s]. *)
Let strengthened (k : nat) (s : float) : float :=
  Nat.iter k (fun x => Math_min 2 (x + 0.2)) s.

Lemma strengthened_S (k : nat) (s : float) :
  strengthened (S k) s = strengthened k (Math_min 2 (s + 0.2)).
Proof.
  unfold strengthened. symmetry.
  exact (Nat.iter_swap k float (fun x => Math_min 2 (x + 0.2)) s).
Qed.

Lemma captures_sole (a : string) (nts : list Territory) (s : float)
    (prev : list Territory) (k : nat) :
  Forall (fun nt => bboxesOverlap poly (polygon nt) = true) nts ->
  nth_error prev k = Some (T [mkOwner a s]) ->
  nth_error (captures (map (pair a) nts) prev) k
  = Some (T [mkOwner a (strengthened (length nts) s)]).
Proof.
  intros H. revert s prev.
  induction H as [|nt nts Hnt _ IH]; intros s prev Hk; [exact Hk|].
  simpl map. unfold captures. simpl fold_left.
  fold (captures (map (pair a) nts) (updater a nt prev)).
  simpl length. rewrite strengthened_S. apply IH.
  rewrite (updater_T a nt prev k _ Hk Hnt), arbitrate_sole. reflexivity.
Qed.

Lemma strengthened_bound (k : nat) : gtb (strengthened k 1) 2 = false.
Proof.
  destruct k as [|k]; [reflexivity|].
  unfold strengthened. simpl. apply Numbers.Math_min_2_bound.
Qed.

(** C3. When the claimant [a] is the sole owner, at stored strength [s],
    of a territory of the store that overlaps the captured polygon, the
    capture sets its stored strength to [Math.min(2.0, s + 0.2)], which is
    never above 2.0; from strength 1.0, six such captures leave exactly
    2.0, and after any number of them up to six the stored strength is
    not above 2.0. *)
Theorem exclusive_strengthening_clamps_at_2
    (a : string) (s : float) (prev : list Territory) (k : nat)
    (nts : list Territory) :
  nth_error prev k = Some (T [mkOwner a s]) ->
  Forall (fun nt => bboxesOverlap poly (polygon nt) = true) nts ->
  (forall nt, In nt nts ->
     nth_error (updater a nt prev) k
     = Some (T [mkOwner a (Math_min 2.0 (s + 0.2))])
     /\ gtb (Math_min 2.0 (s + 0.2)) 2.0 = false)
  /\ (s = 1.0 -> length nts = 6%nat ->
      nth_error (captures (map (pair a) nts) prev) k = Some (T [mkOwner a 2.0])
      /\ forall j, (j <= 6)%nat ->
           exists s', nth_error (captures (map (pair a) (firstn j nts)) prev) k
                      = Some (T [mkOwner a s'])
                      /\ gtb s' 2.0 = false).
Proof.
  intros Hk Hall. split.
  - intros nt Hin. split; [|apply Numbers.Math_min_2_bound].
    rewrite Forall_forall in Hall.
    rewrite (updater_T a nt prev k _ Hk (Hall nt Hin)), arbitrate_sole. reflexivity.
  - intros -> Hlen. split.
    + rewrite (captures_sole a nts 1 prev k Hall Hk), Hlen. reflexivity.
    + intros j Hj. exists (strengthened (length (firstn j nts)) 1). split.
      * apply captures_sole; [|exact Hk]. apply Forall_prefix. exact Hall.
      * apply strengthened_bound.
Qed.

(** C2. A territory of the store held by [a] alone at strength 1.0 and
    three overlapping captures by another owner [b]: the first makes the
    owners [a: 1.0, b: 0.5]; the second raises [b] to 1.0 with no
    claim-over, as 1.0 is not greater than the 1.0 of [a]; the third
    raises [b] to 1.5, which is at least 1.0 and greater than the total of
    the others, and the owners become [b: 1.0] alone. *)
Theorem contest_then_claim_over
    (a b : string) (prev : list Territory) (k : nat) (n1 n2 n3 : Territory) :
  a <> b ->
  nth_error prev k = Some (T [mkOwner a 1.0]) ->
  bboxesOverlap poly (polygon n1) = true ->
  bboxesOverlap poly (polygon n2) = true ->
  bboxesOverlap poly (polygon n3) = true ->
  let first := updater b n1 prev in
  let second := updater b n2 first in
  let third := updater b n3 second in
  nth_error first k = Some (T [mkOwner a 1.0; mkOwner b 0.5])
  /\ nth_error second k = Some (T [mkOwner a 1.0; mkOwner b 1.0])
  /\ gtb (0.5 + 0.5) (totalStrength [mkOwner a 1.0]) = false
  /\ nth_error third k = Some (T [mkOwner b 1.0])
  /\ geb (1.0 + 0.5) 1.0 = true
  /\ gtb (1.0 + 0.5) (totalStrength [mkOwner a 1.0]) = true.
Proof.
  intros Hab Hk H1 H2 H3 first second third.
  assert (Hfirst : nth_error first k = Some (T [mkOwner a 1.0; mkOwner b 0.5])).
  { unfold first.
    rewrite (updater_T b n1 prev k _ Hk H1), (arbitrate_entry a b 1 Hab).
    reflexivity. }
  assert (Hsecond : nth_error second k = Some (T [mkOwner a 1.0; mkOwner b 1.0])).
  { unfold second.
    rewrite (updater_T b n2 first k _ Hfirst H2), (arbitrate_contest a b _ _ Hab).
    reflexivity. }
  repeat split; try assumption.
  unfold third.
  rewrite (updater_T b n3 second k _ Hsecond H3), (arbitrate_contest a b _ _ Hab).
  reflexivity.
Qed.

End OneTerritory.

(** *** Distinct owners *)

Lemma setMyStrength_ids (c : string) (s : float) (os : list TerritoryOwner) :
  map ownerId (setMyStrength c s os) = map ownerId os.
Proof.
  induction os as [|o os IH]; simpl; [reflexivity|].
  destruct (isOwner c o); simpl; [reflexivity|].
  rewrite IH. reflexivity.
Qed.

Lemma absent_owner (c : string) (os : list TerritoryOwner) :
  find (isOwner c) os = None -> ~ In c (map ownerId os).
Proof.
  intros Hnone Hin. apply in_map_iff in Hin. destruct Hin as (o & Ho & Hin).
  pose proof (find_none _ _ Hnone o Hin) as Hf.
  unfold isOwner in Hf. rewrite Ho, String.eqb_refl in Hf. discriminate.
Qed.

Lemma NoDup_snoc (x : string) (l : list string) :
  NoDup l -> ~ In x l -> NoDup (l ++ [x]).
Proof.
  induction 1 as [|y l Hy Hl IH]; simpl; intros Hx.
  - constructor; [intros []|constructor].
  - constructor.
    + intros Hin. apply in_app_or in Hin. destruct Hin as [Hin|[Heq|[]]].
      * contradiction.
      * apply Hx. left. symmetry. exact Heq.
    + apply IH. intros Hin. apply Hx. right. exact Hin.
Qed.

Lemma arbitrateOwners_distinct (c : string) (os : list TerritoryOwner) :
  NoDup (map ownerId os) ->
  NoDup (map ownerId (fst (arbitrateOwners c os))).
Proof.
  intros Hnd. unfold arbitrateOwners.
  destruct (find (isOwner c) os) as [mine|] eqn:Hfind.
  - destruct (length _ =? 0)%nat; simpl.
    + rewrite setMyStrength_ids. exact Hnd.
    + destruct (geb _ _); [destruct (gtb _ _)|]; simpl;
        rewrite ?setMyStrength_ids; try exact Hnd.
      constructor; [intros []|constructor].
  - destruct (0 <? length _)%nat; simpl; [|exact Hnd].
    rewrite map_app. simpl. apply NoDup_snoc; [exact Hnd|].
    apply absent_owner. exact Hfind.
Qed.

(** C9. If the ownerIds of every stored territory's owners are pairwise
    distinct, they still are after one capture is arbitrated: on the
    owners array of any stored territory, whichever branch applies to it
    (exclusive strengthening, contested entry, contesting increment,
    claim-over, or none), and on every territory of the new store. *)
Theorem arbitration_keeps_ownerIds_distinct
    (claimant : string) (newTerr : Territory) (prev : list Territory) :
  Forall (fun t => NoDup (map ownerId (owners t))) prev ->
  NoDup (map ownerId (owners newTerr)) ->
  (forall t, In t prev ->
     NoDup (map ownerId (fst (arbitrateOwners claimant (owners t)))))
  /\ Forall (fun t => NoDup (map ownerId (owners t)))
            (updater claimant newTerr prev).
Proof.
  intros Hprev Hnew.
  assert (Hsettled : Forall (fun t => NoDup (map ownerId (owners t)))
                       (map (settled claimant (polygon newTerr)) prev)).
  { apply Forall_map. apply (Forall_impl _ (P := fun t => NoDup (map ownerId (owners t))));
      [|exact Hprev].
    intros t Ht. unfold settled.
    destruct (bboxesOverlap (polygon t) (polygon newTerr)); [|exact Ht].
    simpl. apply arbitrateOwners_distinct. exact Ht. }
  split.
  - intros t Hin. apply arbitrateOwners_distinct.
    rewrite Forall_forall in Hprev. apply Hprev. exact Hin.
  - rewrite updater_map.
    destruct (existsb _ prev); [exact Hsettled|].
    constructor; assumption.
Qed.

(** *** The contesting increment *)

Lemma captures_app (cs1 cs2 : list (string * Territory)) (ts : list Territory) :
  captures (cs1 ++ cs2) ts = captures cs2 (captures cs1 ts).
Proof. unfold captures. apply fold_left_app. Qed.

Lemma Reachable_captures (cs : list (string * Territory)) (ts : list Territory) :
  Forall (fun c => owners (snd c) = [mkOwner (fst c) 1]) cs ->
  Reachable ts -> Reachable (captures cs ts).
Proof.
  intros H. revert ts.
  induction H as [|c cs Hc _ IH]; intros ts Hts; [exact Hts|].
  unfold captures. simpl. apply IH.
  apply reach_capture; assumption.
Qed.

Lemma arbitrate_increment (c : string) (os : list TerritoryOwner) (mine : TerritoryOwner) :
  find (isOwner c) os = Some mine ->
  filter (fun o => negb (isOwner c o)) os <> [] ->
  geb (strength mine + 0.5) 1
    && gtb (strength mine + 0.5)
           (totalStrength (filter (fun o => negb (isOwner c o)) os)) = false ->
  fst (arbitrateOwners c os) = setMyStrength c (strength mine + 0.5) os.
Proof.
  intros Hfind Hothers Hkeep. unfold arbitrateOwners. rewrite Hfind.
  destruct (filter _ os) as [|o others] eqn:Hf; [congruence|].
  simpl length. simpl Nat.eqb. cbv iota.
  destruct (geb _ _); [|reflexivity].
  simpl in Hkeep. rewrite Hkeep. reflexivity.
Qed.

(** C10. The contesting increment stores [strength + 0.5] as it is, with
    no clamp, whenever it does not end in a claim-over; and the engine
    reaches, from an empty store, a territory where [B] contests at stored
    strength 2.0 against rivals whose strengths total 3.0: the next
    overlapping capture by [B] stores 2.5 for [B], above 2.0. *)
Theorem contesting_increment_exceeds_2 :
  (forall c os mine,
     find (isOwner c) os = Some mine ->
     filter (fun o => negb (isOwner c o)) os <> [] ->
     geb (strength mine + 0.5) 1
       && gtb (strength mine + 0.5)
              (totalStrength (filter (fun o => negb (isOwner c o)) os)) = false ->
     fst (arbitrateOwners c os) = setMyStrength c (strength mine + 0.5) os)
  /\ exists t t' : Territory,
       Reachable [t]
       /\ find (isOwner "B") (owners t) = Some (mkOwner "B" 2.0)
       /\ gtb (totalStrength (filter (fun o => negb (isOwner "B" o)) (owners t))) 2.5
          = true
       /\ updater "B" (snd (claim "B")) [t] = [t']
       /\ find (isOwner "B") (owners t') = Some (mkOwner "B" 2.5)
       /\ gtb 2.5 2.0 = true.
Proof.
  split; [exact arbitrate_increment|].
  exists (mkTerritory "fresh" walk square 1700000000000
            [mkOwner "A" 2; mkOwner "B" 2; mkOwner "C" 1]).
  exists (mkTerritory "fresh" walk square 1700000000000
            [mkOwner "A" 2; mkOwner "B" 2.5; mkOwner "C" 1]).
  split.
  - change (Reachable (captures siege [])).
    apply Reachable_captures; [|constructor].
    unfold siege. repeat constructor.
  - repeat split.
Qed.

(** ** Loop detection *)

Import LoopDetector.

Section DetectorFacts.
Context {host : Host}.
Variable smoothed : list LatLng.

(** The two tests of a candidate start [i], lines 1057 and 1063. *)
Let closes (i : nat) : bool :=
  haversine (at_index smoothed i) (at_index smoothed (length smoothed - 1))
    <? LOOP_CLOSE_THRESHOLD_M.
Let longEnough (i : nat) : bool :=
  gtb (pathDistFrom smoothed i) MIN_LOOP_DISTANCE_M.

Lemma candidate_some (i j : nat) (d : float) :
  candidate smoothed i = Some (j, d) <->
  j = i /\ closes i = true /\ longEnough i = true /\ d = pathDistFrom smoothed i.
Proof.
  unfold candidate, closes, longEnough.
  destruct (_ <? LOOP_CLOSE_THRESHOLD_M).
  - destruct (gtb _ MIN_LOOP_DISTANCE_M).
    + split.
      * intros H. inversion H. auto.
      * intros (-> & _ & _ & ->). reflexivity.
    + split; [discriminate|]. intros (_ & _ & H & _). discriminate.
  - split; [discriminate|]. intros (_ & H & _). discriminate.
Qed.

Lemma candidate_none (i : nat) :
  candidate smoothed i = None <-> closes i && longEnough i = false.
Proof.
  unfold candidate, closes, longEnough.
  destruct (_ <? LOOP_CLOSE_THRESHOLD_M); simpl.
  - destruct (gtb _ MIN_LOOP_DISTANCE_M); split; congruence.
  - split; reflexivity.
Qed.

Lemma findLoop_some (i : nat) (d : float) :
  findLoop smoothed = Some (i, d) <->
  (i + 10 < length smoothed)%nat
  /\ closes i = true /\ longEnough i = true
  /\ d = pathDistFrom smoothed i
  /\ forall k, (k < i)%nat -> closes k && longEnough k = false.
Proof.
  unfold findLoop. rewrite for_break_some. split.
  - intros (j & Hj & Hc & Hk).
    apply candidate_some in Hc. destruct Hc as (<- & Hcl & Hlo & Hd).
    repeat split; auto; try lia.
    intros k Hlt. apply candidate_none. apply Hk. lia.
  - intros (Hi & Hcl & Hlo & Hd & Hk).
    exists i. repeat split; try lia.
    + apply candidate_some. auto.
    + intros k Hlt. apply candidate_none. apply Hk. lia.
Qed.

Lemma findLoop_none :
  findLoop smoothed = None <->
  forall k, (k + 10 < length smoothed)%nat -> closes k && longEnough k = false.
Proof.
  unfold findLoop. rewrite for_break_none. split.
  - intros H k Hk. apply candidate_none. apply H. lia.
  - intros H k Hk. apply candidate_none. apply H. lia.
Qed.

Lemma detect_some (c : Capture) :
  detect smoothed = Some c <->
  (10 < length smoothed)%nat
  /\ findLoop smoothed = Some (loopStartIdx c, loopDistance c)
  /\ capturedPolygon c = skipn (loopStartIdx c) smoothed
  /\ capturedArea c = polygonAreaM2 (capturedPolygon c)
  /\ geb (capturedArea c) MIN_TERRITORY_AREA_M2 = true.
Proof.
  unfold detect.
  destruct (10 <? length smoothed)%nat eqn:Hlen.
  - apply Nat.ltb_lt in Hlen.
    destruct (findLoop smoothed) as [[idx dist]|].
    + destruct (geb (polygonAreaM2 (skipn idx smoothed)) MIN_TERRITORY_AREA_M2) eqn:Ha.
      * split.
        -- intros H. inversion H. subst c. simpl. auto.
        -- intros (_ & Hf & Hp & Har & _). inversion Hf.
           destruct c as [i p ar di]. simpl in *. subst. reflexivity.
      * split; [discriminate|].
        intros (_ & Hf & Hp & Har & Hge). inversion Hf. subst idx.
        rewrite Har, Hp in Hge. congruence.
    + split; [discriminate|]. intros (_ & Hf & _). discriminate.
  - apply Nat.ltb_ge in Hlen.
    split; [discriminate|]. intros (H & _). lia.
Qed.


End DetectorFacts.

Section EffectFacts.
Context {host : Host}.
Variables (m : ActivityMode) (claimant newId : string) (now : float).
Variable st : ProviderState.

Let smoothed : list LatLng := smoothPath (path st) 3.
Let after : ProviderState := loopDetectionEffect (Some m) claimant newId now st.

Lemma effect_no_capture : detect smoothed = None -> after = st.
Proof.
  intros H. unfold after, loopDetectionEffect.
  destruct (length (path st) <? 2)%nat; [reflexivity|].
  fold smoothed. rewrite H. reflexivity.
Qed.

Lemma effect_capture (c : Capture) :
  detect smoothed = Some c ->
  after = mkState (firstn (loopStartIdx c + 1) smoothed)
            (updater claimant
               (newTerritory newId m (capturedPolygon c) now claimant)
               (territories st))
            (capturedLoopCount st + 1) true
            (Some (newTerritory newId m (capturedPolygon c) now claimant)).
Proof.
  intros H. unfold after, loopDetectionEffect.
  destruct (length (path st) <? 2)%nat eqn:Hlen.
  - apply Nat.ltb_lt in Hlen.
    apply detect_some in H. destruct H as (H10 & _).
    unfold smoothed in H10.
    rewrite smoothPath_length in H10. lia.
  - fold smoothed. rewrite H. reflexivity.
Qed.

End EffectFacts.



(** C5, as the engine has it. When a loop is captured at index [i], the
    live path becomes the points of the SMOOTHED path at indices 0 to [i]
    inclusive, [i + 1] points in all: what lies after [i] is dropped, and
    what lies before is kept in its smoothed form. When no capture is
    made, in particular when the candidate polygon has an area below 30
    square metres, the state, and so the path, is left as it was. *)
Theorem capture_keeps_smoothed_prefix
    (host : Host) (m : ActivityMode) (claimant newId : string) (now : float)
    (st : ProviderState) :
  let smoothed := smoothPath (path st) 3 in
  let after := loopDetectionEffect (Some m) claimant newId now st in
  (forall c, detect smoothed = Some c ->
     path after = firstn (loopStartIdx c + 1) smoothed
     /\ length (path after) = (loopStartIdx c + 1)%nat
     /\ forall k, (k <= loopStartIdx c)%nat ->
          nth_error (path after) k = nth_error smoothed k)
  /\ (forall i d, findLoop smoothed = Some (i, d) ->
        geb (polygonAreaM2 (skipn i smoothed)) MIN_TERRITORY_AREA_M2 = false ->
        after = st)
  /\ (detect smoothed = None -> path after = path st).
Proof.
  intros smoothed after. split; [|split].
  - intros c Hd. subst after smoothed.
    rewrite (effect_capture m claimant newId now st c Hd). simpl.
    pose proof Hd as Hs. apply detect_some in Hs.
    destruct Hs as (_ & Hf & _). apply findLoop_some in Hf.
    destruct Hf as (Hi & _).
    split; [reflexivity|]. split.
    + rewrite length_firstn. lia.
    + intros k Hk. rewrite nth_error_firstn.
      destruct (k <? loopStartIdx c + 1)%nat eqn:E; [reflexivity|].
      apply Nat.ltb_ge in E. lia.
  - intros i d Hf Harea. apply effect_no_capture.
    fold smoothed. unfold detect. rewrite Hf, Harea.
    destruct (10 <? length smoothed)%nat; reflexivity.
  - intros Hd. subst after. rewrite effect_no_capture; auto.
Qed.

(** C5, raw samples: on the reference host, the walk [walk14] closes a
    loop at index 3 and the live path becomes the first four SMOOTHED
    points; its first point (latitude -0.0009) is not the first raw sample
    (latitude -0.0010), so the new live path is not a prefix of the old
    one. *)
Lemma capture_replaces_raw_samples :
  let after := @loopDetectionEffect Reference.host (Some walk) "A" "fresh"
                 1700000040000 (stateOf walk14 []) in
  option_map loopStartIdx
    (@detect Reference.host (@smoothPath Reference.host walk14 3)) = Some 3%nat
  /\ loopCaptured after = true
  /\ length (path after) = 4%nat
  /\ path after = firstn 4 (@smoothPath Reference.host walk14 3)
  /\ (latitude (at_index (firstn 4 walk14) 0) <? latitude (at_index (path after) 0))
     = true
  /\ (latitude (at_index (path after) 0) <? -0.00089) = true
  /\ (latitude (at_index (firstn 4 walk14) 0) <? -0.00099) = true.
Proof. vm_compute. repeat split. Qed.

(** ** Decay *)

Module HeapFacts.
Import Heap.

Lemma nth_error_extend (h fresh : heap) (r : ref) (o : object) :
  nth_error h r = Some o -> nth_error (h ++ fresh) r = Some o.
Proof.
  intros H. rewrite nth_error_app1; [exact H|].
  apply nth_error_Some. congruence.
Qed.

Lemma nth_error_fresh (h : heap) (o : object) :
  nth_error (h ++ [o]) (length h) = Some o.
Proof. rewrite nth_error_app2, Nat.sub_diag by lia. reflexivity. Qed.

(** *** Nothing but allocation *)

Lemma allocatesOnly_ret (A : Type) (a : A) : allocatesOnly (ret a).
Proof. intros h a' h' H. inversion H. exists []. rewrite app_nil_r. reflexivity. Qed.

Lemma allocatesOnly_bind (A B : Type) (m : M A) (k : A -> M B) :
  allocatesOnly m -> (forall a, allocatesOnly (k a)) -> allocatesOnly (bind m k).
Proof.
  intros Hm Hk h b h' H. unfold bind in H.
  destruct (m h) as [[a h1]|] eqn:E; [|discriminate].
  destruct (Hm _ _ _ E) as [f1 ->].
  destruct (Hk a _ _ _ H) as [f2 ->].
  exists (f1 ++ f2). rewrite app_assoc. reflexivity.
Qed.

Lemma allocatesOnly_alloc (o : object) : allocatesOnly (alloc o).
Proof. intros h a h' H. inversion H. exists [o]. reflexivity. Qed.

Lemma allocatesOnly_readOwner (r : ref) : allocatesOnly (readOwner r).
Proof.
  intros h a h' H. unfold readOwner in H.
  destruct (nth_error h r) as [[o|items|i m p c os]|]; inversion H.
  exists []. rewrite app_nil_r. reflexivity.
Qed.

Lemma allocatesOnly_readArray (r : ref) : allocatesOnly (readArray r).
Proof.
  intros h a h' H. unfold readArray in H.
  destruct (nth_error h r) as [[o|items|i m p c os]|]; inversion H.
  exists []. rewrite app_nil_r. reflexivity.
Qed.

Lemma allocatesOnly_mapM (A B : Type) (f : A -> M B) (l : list A) :
  (forall a, allocatesOnly (f a)) -> allocatesOnly (mapM f l).
Proof.
  intros Hf. induction l as [|a l IH]; simpl.
  - apply allocatesOnly_ret.
  - apply allocatesOnly_bind; [apply Hf|]. intros b.
    apply allocatesOnly_bind; [exact IH|]. intros bs. apply allocatesOnly_ret.
Qed.

(** The strengthening assignment of the arbitration, by contrast, is a
    write: it changes the object it is applied to. *)
Lemma assignStrength_writes :
  assignStrength 0%nat 2 [OwnerObj (mkOwner "A" 1)]
  = Some (tt, [OwnerObj (mkOwner "A" 2)])
  /\ ~ allocatesOnly (assignStrength 0%nat 2).
Proof.
  split; [reflexivity|].
  intros H.
  destruct (H [OwnerObj (mkOwner "A" 1)] tt [OwnerObj (mkOwner "A" 2)] eq_refl)
    as [fresh Hfresh].
  simpl in Hfresh. inversion Hfresh.
Qed.

Lemma assignStrength_stores (h : heap) (r : ref) (o : TerritoryOwner) (s : float) :
  nth_error h r = Some (OwnerObj o) ->
  exists h', assignStrength r s h = Some (tt, h')
             /\ nth_error h' r = Some (OwnerObj (mkOwner (ownerId o) s))
             /\ length h' = length h.
Proof.
  intros Hr.
  assert (Hlt : (r < length h)%nat) by (apply nth_error_Some; congruence).
  exists (firstn r h ++ OwnerObj (mkOwner (ownerId o) s) :: skipn (S r) h).
  split; [|split].
  - unfold assignStrength, bind, readOwner, write. rewrite Hr.
    apply Nat.ltb_lt in Hlt. rewrite Hlt. reflexivity.
  - rewrite nth_error_app2; rewrite length_firstn, Nat.min_l by lia; [|lia].
    rewrite Nat.sub_diag. reflexivity.
  - rewrite length_app, length_firstn. cbn [length]. rewrite length_skipn. lia.
Qed.

Section WithHost.
Context {host : Host}.

Lemma allocatesOnly_decayOwner (d : float) (r : ref) :
  allocatesOnly (decayOwner d r).
Proof.
  apply allocatesOnly_bind; [apply allocatesOnly_readOwner|].
  intros o. apply allocatesOnly_alloc.
Qed.

Lemma allocatesOnly_decayTerritory (now : float) (r : ref) :
  allocatesOnly (decayTerritory now r).
Proof.
  intros h a h' H. unfold decayTerritory in H.
  destruct (nth_error h r) as [[o|items|i m p c os]|]; try discriminate.
  revert h a h' H.
  apply allocatesOnly_bind; [apply allocatesOnly_readArray|]. intros items.
  apply allocatesOnly_bind;
    [apply allocatesOnly_mapM; intros; apply allocatesOnly_decayOwner|].
  intros items'.
  apply allocatesOnly_bind; intros; apply allocatesOnly_alloc.
Qed.

Lemma allocatesOnly_decayedTerritories (now : float) (territories : ref) :
  allocatesOnly (decayedTerritories now territories).
Proof.
  intros h a h' H. unfold decayedTerritories in H.
  destruct (nth_error h territories) as [[o|ts|i m p c os]|];
    try (revert H; apply allocatesOnly_alloc).
  revert H. generalize (filter (isTerritory h) ts). intros kept. revert h a h'.
  apply allocatesOnly_bind; [apply allocatesOnly_alloc|]. intros _.
  apply allocatesOnly_bind;
    [apply allocatesOnly_mapM; intros; apply allocatesOnly_decayTerritory|].
  intros ts'. apply allocatesOnly_alloc.
Qed.

End WithHost.

End HeapFacts.

(** *** The store view agrees with the value view *)

Module DecayFacts.
Import Heap HeapFacts.

Lemma loadAll_mono (A : Type) (load load' : ref -> option A) (rs : list ref) (l : list A) :
  (forall r a, load r = Some a -> load' r = Some a) ->
  loadAll load rs = Some l -> loadAll load' rs = Some l.
Proof.
  intros Hm. revert l. induction rs as [|r rs IH]; intros l; simpl; [auto|].
  destruct (load r) as [a|] eqn:Ha; [|discriminate].
  destruct (loadAll load rs) as [l0|]; [|discriminate].
  intros H. rewrite (Hm _ _ Ha), (IH l0 eq_refl). exact H.
Qed.

Lemma loadOwner_extend (h fresh : heap) (r : ref) (o : TerritoryOwner) :
  loadOwner h r = Some o -> loadOwner (h ++ fresh) r = Some o.
Proof.
  unfold loadOwner. intros H.
  destruct (nth_error h r) as [[o'|items|i m p c os]|] eqn:E; try discriminate.
  rewrite (nth_error_extend _ fresh _ _ E). exact H.
Qed.

Lemma loadTerritory_extend (h fresh : heap) (r : ref) (t : Territory) :
  loadTerritory h r = Some t -> loadTerritory (h ++ fresh) r = Some t.
Proof.
  unfold loadTerritory. intros H.
  destruct (nth_error h r) as [[o'|items|i m p c os]|] eqn:E; try discriminate.
  rewrite (nth_error_extend _ fresh _ _ E).
  destruct (nth_error h os) as [[o'|items|i' m' p' c' os']|] eqn:E2; try discriminate.
  rewrite (nth_error_extend _ fresh _ _ E2).
  destruct (loadAll (loadOwner h) items) as [l|] eqn:E3; [|discriminate].
  rewrite (loadAll_mono _ (loadOwner h) (loadOwner (h ++ fresh)) items l
             (loadOwner_extend h fresh) E3).
  exact H.
Qed.

Lemma loadTerritories_extend (h fresh : heap) (r : ref) (ts : list Territory) :
  loadTerritories h r = Some ts -> loadTerritories (h ++ fresh) r = Some ts.
Proof.
  unfold loadTerritories. intros H.
  destruct (nth_error h r) as [[o'|items|i m p c os]|] eqn:E; try discriminate.
  rewrite (nth_error_extend _ fresh _ _ E).
  apply (loadAll_mono _ (loadTerritory h) (loadTerritory (h ++ fresh)) items ts
           (loadTerritory_extend h fresh) H).
Qed.

(** [mapM] of an allocating copy [f] that turns an object read as [a]
    into an object read as [g a]. *)
Lemma mapM_copies (A B : Type) (f : ref -> M ref)
    (loadA : heap -> ref -> option A) (loadB : heap -> ref -> option B)
    (g : A -> B) :
  (forall h fresh r a, loadA h r = Some a -> loadA (h ++ fresh) r = Some a) ->
  (forall h fresh r b, loadB h r = Some b -> loadB (h ++ fresh) r = Some b) ->
  (forall h r a, loadA h r = Some a ->
     exists r' fresh, f r h = Some (r', h ++ fresh)
                      /\ loadB (h ++ fresh) r' = Some (g a)) ->
  forall rs h l, loadAll (loadA h) rs = Some l ->
    exists rs' fresh, mapM f rs h = Some (rs', h ++ fresh)
                      /\ loadAll (loadB (h ++ fresh)) rs' = Some (map g l).
Proof.
  intros HA HB Hf. induction rs as [|r rs IH]; intros h l Hl; simpl in *.
  - inversion Hl. exists [], []. rewrite app_nil_r. split; reflexivity.
  - destruct (loadA h r) as [a|] eqn:Ha; [|discriminate].
    destruct (loadAll (loadA h) rs) as [l0|] eqn:Hl0; [|discriminate].
    inversion Hl. subst l. clear Hl.
    destruct (Hf _ _ _ Ha) as (r' & f1 & Hrun & Hload).
    assert (Hl1 : loadAll (loadA (h ++ f1)) rs = Some l0).
    { apply (loadAll_mono _ (loadA h) (loadA (h ++ f1)) rs); [|exact Hl0].
      intros r0 a0. apply HA. }
    destruct (IH _ _ Hl1) as (rs' & f2 & Hrun2 & Hload2).
    exists (r' :: rs'), (f1 ++ f2). rewrite app_assoc. split.
    + unfold bind. rewrite Hrun, Hrun2. reflexivity.
    + simpl. rewrite (HB _ f2 _ _ Hload), Hload2. reflexivity.
Qed.

Section WithHost.
Context {host : Host}.

Lemma decayOwner_copies (d : float) (h : heap) (r : ref) (o : TerritoryOwner) :
  loadOwner h r = Some o ->
  exists r' fresh, decayOwner d r h = Some (r', h ++ fresh)
                   /\ loadOwner (h ++ fresh) r' = Some (Decay.decayOwner d o).
Proof.
  intros H. unfold loadOwner in H.
  destruct (nth_error h r) as [[o'|items|i m p c os]|] eqn:E; try discriminate.
  inversion H. subst o'.
  exists (length h), [OwnerObj (Decay.decayOwner d o)]. split.
  - unfold decayOwner, bind, readOwner. rewrite E. reflexivity.
  - unfold loadOwner. rewrite nth_error_fresh. reflexivity.
Qed.

Lemma decayTerritory_copies (now : float) (h : heap) (r : ref) (t : Territory) :
  loadTerritory h r = Some t ->
  exists r' fresh, decayTerritory now r h = Some (r', h ++ fresh)
                   /\ loadTerritory (h ++ fresh) r' = Some (Decay.decayTerritory now t).
Proof.
  intros H. unfold loadTerritory in H.
  destruct (nth_error h r) as [[o'|items0|i m p c os]|] eqn:E; try discriminate.
  destruct (nth_error h os) as [[o'|items|i' m' p' c' os']|] eqn:E2; try discriminate.
  destruct (loadAll (loadOwner h) items) as [l|] eqn:E3; [|discriminate].
  inversion H. subst t. clear H.
  destruct (mapM_copies _ _ (decayOwner (Decay.decay now c)) loadOwner loadOwner
              (Decay.decayOwner (Decay.decay now c))
              loadOwner_extend loadOwner_extend
              (decayOwner_copies (Decay.decay now c)) items h l E3)
    as (items' & f1 & Hrun & Hload).
  exists (S (length (h ++ f1))),
         (f1 ++ [ArrayObj items';
                 TerritoryObj i m p c (length (h ++ f1))]).
  split.
  - unfold decayTerritory. rewrite E.
    unfold bind, readArray, alloc. rewrite E2, Hrun.
    rewrite (length_app (h ++ f1)). simpl length.
    rewrite Nat.add_1_r, <- !app_assoc. reflexivity.
  - unfold loadTerritory.
    replace (h ++ f1 ++ [ArrayObj items'; TerritoryObj i m p c (length (h ++ f1))])
      with (((h ++ f1) ++ [ArrayObj items'])
              ++ [TerritoryObj i m p c (length (h ++ f1))])
      by (rewrite <- !app_assoc; reflexivity).
    replace (S (length (h ++ f1))) with (length ((h ++ f1) ++ [ArrayObj items']))
      by (rewrite (length_app (h ++ f1)); simpl; lia).
    rewrite nth_error_fresh.
    rewrite (nth_error_extend _ [TerritoryObj i m p c (length (h ++ f1))] _ _
               (nth_error_fresh (h ++ f1) (ArrayObj items'))).
    rewrite <- app_assoc.
    rewrite (loadAll_mono _ _ (loadOwner ((h ++ f1) ++ [ArrayObj items'] ++ _)) items' _
               (loadOwner_extend (h ++ f1) _) Hload).
    reflexivity.
Qed.

Lemma filter_isTerritory (h : heap) (rs : list ref) (ts : list Territory) :
  loadAll (loadTerritory h) rs = Some ts -> filter (isTerritory h) rs = rs.
Proof.
  revert ts. induction rs as [|r rs IH]; intros ts H; simpl in *; [reflexivity|].
  destruct (loadTerritory h r) as [t|] eqn:Ht; [|discriminate].
  destruct (loadAll (loadTerritory h) rs) as [l|]; [|discriminate].
  rewrite (IH l eq_refl).
  unfold loadTerritory in Ht. unfold isTerritory.
  destruct (nth_error h r) as [[o'|items0|i m p c os]|]; try discriminate.
  destruct (nth_error h os) as [[o'|items|i' m' p' c' os']|]; try discriminate.
  reflexivity.
Qed.

Lemma decayedTerritories_copies (now : float) (h : heap) (r : ref) (ts : list Territory) :
  loadTerritories h r = Some ts ->
  exists r' fresh,
    decayedTerritories now r h = Some (r', h ++ fresh)
    /\ loadTerritories (h ++ fresh) r' = Some (Decay.decayedTerritories now ts).
Proof.
  intros H. unfold loadTerritories in H.
  destruct (nth_error h r) as [[o'|rs|i m p c os]|] eqn:E; try discriminate.
  assert (Hl : loadAll (loadTerritory (h ++ [ArrayObj rs])) rs = Some ts).
  { apply (loadAll_mono _ (loadTerritory h) _ rs ts
             (loadTerritory_extend h _) H). }
  destruct (mapM_copies _ _ (decayTerritory now) loadTerritory loadTerritory
              (Decay.decayTerritory now)
              loadTerritory_extend loadTerritory_extend
              (decayTerritory_copies now) rs (h ++ [ArrayObj rs]) ts Hl)
    as (rs' & f1 & Hrun & Hload).
  exists (length ((h ++ [ArrayObj rs]) ++ f1)), ([ArrayObj rs] ++ f1 ++ [ArrayObj rs']).
  split.
  - unfold decayedTerritories. rewrite E, (filter_isTerritory h rs ts H).
    unfold bind, alloc. rewrite Hrun. rewrite <- !app_assoc. reflexivity.
  - unfold loadTerritories.
    replace (h ++ [ArrayObj rs] ++ f1 ++ [ArrayObj rs'])
      with (((h ++ [ArrayObj rs]) ++ f1) ++ [ArrayObj rs'])
      by (rewrite <- !app_assoc; reflexivity).
    rewrite nth_error_fresh.
    apply (loadAll_mono _ _ _ rs' _
             (loadTerritory_extend _ [ArrayObj rs']) Hload).
Qed.

End WithHost.

End DecayFacts.

Import Heap.

(** C6. The decay projection only reads the stored territories. For each
    of them [days] is [(now - createdAt) / 86400000] and the factor is
    [Math.pow(1 - 0.02, Math.max(0, days))], which is 1.0 when [days] is 0
    (given that the host's [Math.pow(x, 0)] is 1, as ECMAScript requires).
    The projection returns a new array of new territory objects, equal to
    the stored ones but for the strength of every owner, which is the
    stored strength times the factor; every object of the store is left
    as it was (a run of the projection only allocates, on any store), so
    the stored territories read the same afterwards. *)
Theorem decay_is_a_read_time_view
    (host : Host) (now : float) (h : heap) (territories : ref)
    (ts : list Territory) :
  loadTerritories h territories = Some ts ->
  (forall x, Math_pow x 0 = 1) ->
  (forall t, In t ts ->
     Decay.days now (createdAt t) = (now - createdAt t) / 86400000
     /\ Decay.decay now (createdAt t)
        = Math_pow (1 - 0.02) (Math_max 0 (Decay.days now (createdAt t)))
     /\ (Decay.days now (createdAt t) = 0 -> Decay.decay now (createdAt t) = 1))
  /\ allocatesOnly (decayedTerritories now territories)
  /\ exists view h' shown,
       decayedTerritories now territories h = Some (view, h')
       /\ loadTerritories h' view = Some shown
       /\ shown = Decay.decayedTerritories now ts
       /\ length shown = length ts
       /\ (forall k t, nth_error ts k = Some t ->
             exists t', nth_error shown k = Some t'
               /\ id t' = id t /\ mode t' = mode t /\ polygon t' = polygon t
               /\ createdAt t' = createdAt t
               /\ map ownerId (owners t') = map ownerId (owners t)
               /\ map strength (owners t')
                  = map (fun o => strength o * Decay.decay now (createdAt t))
                        (owners t))
       /\ (forall r o, nth_error h r = Some o -> nth_error h' r = Some o)
       /\ loadTerritories h' territories = Some ts.
Proof.
  intros Hload Hpow. split.
  - intros t _. split; [reflexivity|]. split; [reflexivity|].
    intros Hdays. unfold Decay.decay. rewrite Hdays.
    change (Math_max 0 0) with 0. apply Hpow.
  - split; [apply HeapFacts.allocatesOnly_decayedTerritories|].
    destruct (DecayFacts.decayedTerritories_copies now h territories ts Hload)
      as (view & fresh & Hrun & Hview).
    exists view, (h ++ fresh), (Decay.decayedTerritories now ts).
    split; [exact Hrun|]. split; [exact Hview|]. split; [reflexivity|].
    split; [apply length_map|]. split; [|split].
    + intros k t Hk. exists (Decay.decayTerritory now t). split.
      * unfold Decay.decayedTerritories. rewrite nth_error_map, Hk. reflexivity.
      * simpl. repeat split; rewrite map_map; reflexivity.
    + intros r o Hr. apply HeapFacts.nth_error_extend. exact Hr.
    + apply DecayFacts.loadTerritories_extend. exact Hload.
Qed.

(** ** Concrete instances *)

(** The reference host computes [Math.pow(x, 0)] as 1. *)
Lemma reference_pow_zero (x : float) : @Math_pow Reference.host x 0 = 1.
Proof. reflexivity. Qed.

(** C6 on [store0], read at the very instant the territory was created:
    the projection runs, the stored territory reads as before, and the
    view shows the stored strengths, the factor being 1. *)
Lemma decay_is_a_read_time_view_witness :
  loadTerritories store0 4%nat = Some [sharedSquare]
  /\ (forall x, @Math_pow Reference.host x 0 = 1)
  /\ @Decay.decay Reference.host 1700000000000 (createdAt sharedSquare) = 1
  /\ exists view h',
       @decayedTerritories Reference.host 1700000000000 4%nat store0 = Some (view, h')
       /\ loadTerritories h' view = Some [sharedSquare]
       /\ loadTerritories h' 4%nat = Some [sharedSquare].
Proof.
  assert (H1 : loadTerritories store0 4%nat = Some [sharedSquare]) by reflexivity.
  assert (H2 : forall x, @Math_pow Reference.host x 0 = 1) by (intros x; reflexivity).
  split; [exact H1|]. split; [exact H2|].
  destruct (decay_is_a_read_time_view Reference.host 1700000000000 store0 4%nat
              [sharedSquare] H1 H2)
    as (Hformula & _ & view & h' & shown & Hrun & Hview & Hshown & _ & _ & _ & Hstored).
  split.
  - destruct (Hformula sharedSquare (or_introl eq_refl)) as (_ & _ & Hzero).
    apply Hzero. reflexivity.
  - exists view, h'. split; [exact Hrun|]. split; [|exact Hstored].
    rewrite Hview, Hshown. reflexivity.
Defined.

(** C3 on [twoSquares]: six captures of [square] by its sole owner [A]
    take the stored strength from 1.0 to exactly 2.0. *)
Lemma exclusive_strengthening_clamps_at_2_witness :
  nth_error twoSquares 1 = Some (held "t1" square [mkOwner "A" 1.0])
  /\ Forall (fun nt => bboxesOverlap square (polygon nt) = true) sixByA
  /\ nth_error (captures (map (pair "A"%string) sixByA) twoSquares) 1
     = Some (held "t1" square [mkOwner "A" 2.0]).
Proof.
  assert (Hk : nth_error twoSquares 1 = Some (held "t1" square [mkOwner "A" 1.0]))
    by reflexivity.
  assert (H : Forall (fun nt => bboxesOverlap square (polygon nt) = true) sixByA)
    by (repeat constructor).
  split; [exact Hk|]. split; [exact H|].
  destruct (exclusive_strengthening_clamps_at_2 "t1" walk square 1700000000000
              "A" 1 twoSquares 1 sixByA Hk H) as (_ & Hsix).
  destruct (Hsix eq_refl eq_refl) as (Hend & _). exact Hend.
Defined.

(** C2 on [twoSquares], where [square] is held by [A] and captured three
    times by [B]. *)
Lemma contest_then_claim_over_witness :
  "A"%string <> "B"%string
  /\ nth_error twoSquares 1 = Some (held "t1" square [mkOwner "A" 1.0])
  /\ bboxesOverlap square (polygon (snd (claim "B"))) = true
  /\ nth_error (updater "B" (snd (claim "B")) twoSquares) 1
     = Some (held "t1" square [mkOwner "A" 1.0; mkOwner "B" 0.5])
  /\ nth_error (captures [claim "B"; claim "B"; claim "B"] twoSquares) 1
     = Some (held "t1" square [mkOwner "B" 1.0]).
Proof.
  assert (Hab : "A"%string <> "B"%string) by discriminate.
  assert (Hk : nth_error twoSquares 1 = Some (held "t1" square [mkOwner "A" 1.0]))
    by reflexivity.
  assert (Hov : bboxesOverlap square (polygon (snd (claim "B"))) = true)
    by reflexivity.
  split; [exact Hab|]. split; [exact Hk|]. split; [exact Hov|].
  destruct (contest_then_claim_over "t1" walk square 1700000000000 "A" "B"
              twoSquares 1 (snd (claim "B")) (snd (claim "B")) (snd (claim "B"))
              Hab Hk Hov Hov Hov)
    as (H1 & _ & _ & H3 & _).
  split; [exact H1|exact H3].
Defined.

(** C9 on [twoSquares], captured by [B]. *)
Lemma arbitration_keeps_ownerIds_distinct_witness :
  Forall (fun t => NoDup (map ownerId (owners t))) twoSquares
  /\ NoDup (map ownerId (owners (snd (claim "B"))))
  /\ Forall (fun t => NoDup (map ownerId (owners t)))
            (updater "B" (snd (claim "B")) twoSquares).
Proof.
  assert (Hone : forall x : string, NoDup [x]).
  { intros x. constructor; [intros []|constructor]. }
  assert (Hprev : Forall (fun t => NoDup (map ownerId (owners t))) twoSquares).
  { constructor; [exact (Hone _)|]. constructor; [exact (Hone _)|constructor]. }
  assert (Hnew : NoDup (map ownerId (owners (snd (claim "B")))))
    by exact (Hone _).
  split; [exact Hprev|]. split; [exact Hnew|].
  exact (proj2 (arbitration_keeps_ownerIds_distinct "B" (snd (claim "B"))
                  twoSquares Hprev Hnew)).
Defined.

(** The detector on the reference host: [walk14] closes a loop at index 3
    (indices 0, 1 and 2 are 100 m, 89 m and 67 m from the last point),
    142.5 m long and enclosing about 1063 square metres, which is
    captured; [thin14] closes a loop at index 3 as well, but that loop
    encloses about 12 square metres and nothing is captured. *)
Example walk14_is_captured :
  option_map loopStartIdx (@detect Reference.host (@smoothPath Reference.host walk14 3))
  = Some 3%nat
  /\ option_map fst (@findLoop Reference.host (@smoothPath Reference.host thin14 3))
     = Some 3%nat
  /\ @detect Reference.host (@smoothPath Reference.host thin14 3) = None
  /\ @loopDetectionEffect Reference.host (Some walk) "A" "fresh" 1700000040000
       (stateOf thin14 [])
     = stateOf thin14 [].
Proof. vm_compute. repeat split. Qed.

(** A capture of [farSquare] next to a stored [square] adds a territory;
    a capture of [square] itself adds none and strengthens the stored
    one. *)
Example capture_next_to_and_over :
  updater "A" (LoopDetector.newTerritory "fresh" walk farSquare 1700000040000 "A")
    [held "t1" square [mkOwner "A" 1]]
  = [mkTerritory "fresh" walk farSquare 1700000040000 [mkOwner "A" 1];
     held "t1" square [mkOwner "A" 1]]
  /\ updater "A" (LoopDetector.newTerritory "fresh" walk square 1700000040000 "A")
       [held "t1" square [mkOwner "A" 1]]
     = [held "t1" square [mkOwner "A" 1.2]].
Proof. vm_compute. repeat split. Qed.

(** After 35 days the reference host gives a factor of about 0.4931. *)
Example decay_after_35_days :
  (0.4930 <? @Decay.decay Reference.host (1700000000000 + 35 * 86400000) 1700000000000)
  && (@Decay.decay Reference.host (1700000000000 + 35 * 86400000) 1700000000000 <? 0.4932)
  = true.
Proof. vm_compute. reflexivity. Qed.

(** * Further properties *)

(** ** The order of numbers *)

Module FloatOrderFacts.
Import FloatOrder.

Lemma lex_lt (a b : Z * Z * Z) :
  lex a b = Lt <->
  (fst (fst a) < fst (fst b)
   \/ fst (fst a) = fst (fst b)
      /\ (snd (fst a) < snd (fst b)
          \/ snd (fst a) = snd (fst b) /\ snd a < snd b))%Z.
Proof.
  unfold lex.
  destruct (Z.compare_spec (fst (fst a)) (fst (fst b)));
    [destruct (Z.compare_spec (snd (fst a)) (snd (fst b)));
       [destruct (Z.compare_spec (snd a) (snd b))| |]| |];
    split; intros H'; try discriminate; try reflexivity; lia.
Qed.

Lemma lex_eq (a b : Z * Z * Z) : lex a b = Eq <-> a = b.
Proof.
  unfold lex. destruct a as [[a1 a2] a3], b as [[b1 b2] b3]. simpl.
  destruct (Z.compare_spec a1 b1);
    [destruct (Z.compare_spec a2 b2);
       [destruct (Z.compare_spec a3 b3)| |]| |];
    split; intros H'; try discriminate; try reflexivity;
    try (inversion H'; lia); subst; reflexivity.
Qed.

Lemma SFcompare_key (x y : spec_float) :
  SFcompare x y
  = if isNaN x || isNaN y then None else Some (lex (key x) (key y)).
Proof.
  destruct x as [sx|sx| |sx mx ex], y as [sy|sy| |sy my ey];
    try reflexivity; try (destruct sx; reflexivity);
    try (destruct sy; reflexivity); try (destruct sx, sy; reflexivity).
  destruct sx, sy; simpl; unfold lex; simpl; try reflexivity.
  all: rewrite ?Z.compare_opp, ?(Z.compare_antisym ex ey);
    destruct (ex ?= ey)%Z eqn:E; try reflexivity;
    rewrite ?(Z.compare_antisym ex ey), ?E; reflexivity.
Qed.

Lemma is_nan_spec (x : float) : is_nan x = isNaN (Prim2SF x).
Proof.
  unfold is_nan. rewrite FloatAxioms.eqb_spec. unfold SFeqb. rewrite SFcompare_key.
  destruct (isNaN (Prim2SF x)); [reflexivity|]. simpl.
  rewrite (proj2 (lex_eq _ _) eq_refl). reflexivity.
Qed.

(** [x < y] holds exactly when neither is NaN and the keys are in order. *)
Lemma ltb_key (x y : float) :
  (x <? y) = true <->
  is_nan x = false /\ is_nan y = false /\ lex (keyOf x) (keyOf y) = Lt.
Proof.
  rewrite FloatAxioms.ltb_spec, !is_nan_spec. unfold SFltb, keyOf. rewrite SFcompare_key.
  destruct (isNaN (Prim2SF x)); simpl; [split; [discriminate|intros (H & _); discriminate]|].
  destruct (isNaN (Prim2SF y)); simpl; [split; [discriminate|intros (_ & H & _); discriminate]|].
  destruct (lex _ _); split; intros H; try discriminate; auto;
    destruct H as (_ & _ & H); discriminate.
Qed.

Lemma eqb_key (x y : float) :
  (x =? y) = true <->
  is_nan x = false /\ is_nan y = false /\ keyOf x = keyOf y.
Proof.
  rewrite FloatAxioms.eqb_spec, !is_nan_spec. unfold SFeqb, keyOf. rewrite SFcompare_key.
  destruct (isNaN (Prim2SF x)); simpl; [split; [discriminate|intros (H & _); discriminate]|].
  destruct (isNaN (Prim2SF y)); simpl; [split; [discriminate|intros (_ & H & _); discriminate]|].
  rewrite <- lex_eq.
  destruct (lex _ _); split; intros H; try discriminate; auto;
    destruct H as (_ & _ & H); discriminate.
Qed.

Lemma ltb_irrefl (x : float) : (x <? x) = false.
Proof.
  destruct (x <? x) eqn:E; [|reflexivity].
  apply ltb_key in E. destruct E as (_ & _ & E). apply lex_lt in E. lia.
Qed.

Lemma ltb_trans (x y z : float) :
  (x <? y) = true -> (y <? z) = true -> (x <? z) = true.
Proof.
  rewrite !ltb_key, !lex_lt. intros (Hx & Hy & H1) (_ & Hz & H2).
  repeat split; auto. lia.
Qed.

Lemma ltb_asym (x y : float) : (x <? y) = true -> (y <? x) = false.
Proof.
  intros H. destruct (y <? x) eqn:E; [|reflexivity].
  pose proof (ltb_trans _ _ _ H E) as F. rewrite ltb_irrefl in F. discriminate.
Qed.

(** Between two numbers in order, any number that is not NaN is above the
    first or below the second. *)
Lemma ltb_between (x y z : float) :
  (x <? y) = true -> is_nan z = false ->
  (x <? z) = true \/ (z <? y) = true.
Proof.
  rewrite !ltb_key, !lex_lt. intros (Hx & Hy & H1) Hz.
  assert (Hcases :
    (fst (fst (keyOf x)) < fst (fst (keyOf z))
     \/ fst (fst (keyOf x)) = fst (fst (keyOf z))
        /\ (snd (fst (keyOf x)) < snd (fst (keyOf z))
            \/ snd (fst (keyOf x)) = snd (fst (keyOf z))
               /\ snd (keyOf x) < snd (keyOf z)))%Z
    \/ (fst (fst (keyOf z)) < fst (fst (keyOf y))
        \/ fst (fst (keyOf z)) = fst (fst (keyOf y))
           /\ (snd (fst (keyOf z)) < snd (fst (keyOf y))
               \/ snd (fst (keyOf z)) = snd (fst (keyOf y))
                  /\ snd (keyOf z) < snd (keyOf y)))%Z) by lia.
  destruct Hcases as [H|H]; [left|right]; repeat split; auto.
Qed.

Lemma ltb_not_nan (x y : float) :
  (x <? y) = true -> is_nan x = false /\ is_nan y = false.
Proof. rewrite ltb_key. intros (Hx & Hy & _). auto. Qed.

Lemma eqb_ltb_r (x y z : float) :
  (x =? y) = true -> (z <? x) = (z <? y).
Proof.
  intros H. apply eqb_key in H. destruct H as (Hx & Hy & Hk).
  destruct (z <? x) eqn:E1.
  - symmetry. apply ltb_key. apply ltb_key in E1. rewrite <- Hk. tauto.
  - destruct (z <? y) eqn:E2; [|reflexivity].
    apply ltb_key in E2. rewrite <- Hk in E2.
    assert (F : (z <? x) = true) by (apply ltb_key; tauto). congruence.
Qed.

End FloatOrderFacts.

(** ** Bounding boxes *)

Module BoxFacts.
Import FloatOrderFacts.

(** X1. The overlap test does not depend on the order of its two
    polygons. *)
Theorem bboxesOverlap_symmetric (a b : list LatLng) :
  bboxesOverlap a b = bboxesOverlap b a.
Proof.
  unfold bboxesOverlap, gtb.
  destruct (maxLat (bbox a) <? minLat (bbox b)),
           (maxLat (bbox b) <? minLat (bbox a)),
           (maxLon (bbox a) <? minLon (bbox b)),
           (maxLon (bbox b) <? minLon (bbox a)); reflexivity.
Qed.

Section RunningBounds.
Variable f : LatLng -> float.

Let lower (m : float) (p : LatLng) : float := if f p <? m then f p else m.
Let upper (m : float) (p : LatLng) : float := if gtb (f p) m then f p else m.

Lemma lower_keeps (l : list LatLng) (m x : float) :
  (x <? m) = false -> (x <? fold_left lower l m) = false.
Proof.
  revert m. induction l as [|q l IH]; intros m H; simpl; [exact H|].
  apply IH. unfold lower. destruct (f q <? m) eqn:E; [|exact H].
  destruct (x <? f q) eqn:F; [|reflexivity].
  rewrite (ltb_trans _ _ _ F E) in H. discriminate.
Qed.

Lemma lower_below (l : list LatLng) (m : float) (p : LatLng) :
  In p l -> (f p <? fold_left lower l m) = false.
Proof.
  revert m. induction l as [|q l IH]; intros m Hin; simpl in *; [contradiction|].
  destruct Hin as [Heq|Hin].
  - subst q. apply lower_keeps. unfold lower.
    destruct (f p <? m) eqn:E; [apply ltb_irrefl|exact E].
  - apply IH. exact Hin.
Qed.

Lemma upper_keeps (l : list LatLng) (m x : float) :
  (m <? x) = false -> (fold_left upper l m <? x) = false.
Proof.
  revert m. induction l as [|q l IH]; intros m H; simpl; [exact H|].
  apply IH. unfold upper, gtb. destruct (m <? f q) eqn:E; [|exact H].
  destruct (f q <? x) eqn:F; [|reflexivity].
  rewrite (ltb_trans _ _ _ E F) in H. discriminate.
Qed.

Lemma upper_above (l : list LatLng) (m : float) (p : LatLng) :
  In p l -> (fold_left upper l m <? f p) = false.
Proof.
  revert m. induction l as [|q l IH]; intros m Hin; simpl in *; [contradiction|].
  destruct Hin as [Heq|Hin].
  - subst q. apply upper_keeps. unfold upper, gtb.
    destruct (m <? f p) eqn:E; [apply ltb_irrefl|exact E].
  - apply IH. exact Hin.
Qed.

End RunningBounds.

Lemma bbox_fold (l : list LatLng) (b : BBox) :
  fold_left bbox_step l b
  = mkBBox
      (fold_left (fun m p => if latitude p <? m then latitude p else m) l (minLat b))
      (fold_left (fun m p => if longitude p <? m then longitude p else m) l (minLon b))
      (fold_left (fun m p => if gtb (latitude p) m then latitude p else m) l (maxLat b))
      (fold_left (fun m p => if gtb (longitude p) m then longitude p else m) l (maxLon b)).
Proof.
  revert b. induction l as [|q l IH]; intros b; simpl.
  - destruct b; reflexivity.
  - rewrite IH. reflexivity.
Qed.

Lemma bbox_bounds (poly : list LatLng) (p : LatLng) :
  In p poly ->
  (latitude p <? minLat (bbox poly)) = false
  /\ gtb (latitude p) (maxLat (bbox poly)) = false
  /\ (longitude p <? minLon (bbox poly)) = false
  /\ gtb (longitude p) (maxLon (bbox poly)) = false.
Proof.
  intros Hin. unfold bbox, gtb. rewrite bbox_fold. simpl.
  repeat split.
  - apply (lower_below latitude). exact Hin.
  - apply (upper_above latitude). exact Hin.
  - apply (lower_below longitude). exact Hin.
  - apply (upper_above longitude). exact Hin.
Qed.

(** X2. No point of a polygon lies outside its bounding box: no latitude
    is below [minLat] or above [maxLat], and no longitude is below
    [minLon] or above [maxLon]. *)
Theorem bbox_encloses (poly : list LatLng) (p : LatLng) :
  In p poly ->
  (latitude p <? minLat (bbox poly)) = false
  /\ gtb (latitude p) (maxLat (bbox poly)) = false
  /\ (longitude p <? minLon (bbox poly)) = false
  /\ gtb (longitude p) (maxLon (bbox poly)) = false.
Proof. apply bbox_bounds. Qed.

Lemma bbox_encloses_witness :
  In (pt 3 3 18) square
  /\ (latitude (pt 3 3 18) <? minLat (bbox square)) = false
  /\ gtb (latitude (pt 3 3 18)) (maxLat (bbox square)) = false.
Proof.
  assert (Hin : In (pt 3 3 18) square) by (right; right; left; reflexivity).
  split; [exact Hin|].
  destruct (bbox_encloses square (pt 3 3 18) Hin) as (H1 & H2 & _).
  split; [exact H1|exact H2].
Defined.

Lemma bound_order (lo hi x : float) :
  is_nan x = false -> (x <? lo) = false -> (hi <? x) = false ->
  (hi <? lo) = false.
Proof.
  intros Hx Hlo Hhi. destruct (hi <? lo) eqn:E; [|reflexivity].
  destruct (ltb_between hi lo x E Hx) as [F|F]; congruence.
Qed.

Lemma shared_point_overlap (a b : list LatLng) (p : LatLng) :
  In p a -> In p b ->
  is_nan (latitude p) = false -> is_nan (longitude p) = false ->
  bboxesOverlap a b = true.
Proof.
  intros Ha Hb Hlat Hlon.
  destruct (bbox_bounds a p Ha) as (A1 & A2 & A3 & A4).
  destruct (bbox_bounds b p Hb) as (B1 & B2 & B3 & B4).
  unfold bboxesOverlap, gtb in *.
  rewrite (bound_order _ _ _ Hlat B1 A2), (bound_order _ _ _ Hlat A1 B2),
          (bound_order _ _ _ Hlon B3 A4), (bound_order _ _ _ Hlon A3 B4).
  reflexivity.
Qed.

End BoxFacts.

Import BoxFacts.

(** X3. Two polygons that share a point whose coordinates are not NaN
    always overlap, so a capture that shares such a point with a stored
    territory adds no territory to the store: it is arbitrated on the
    stored ones. *)
Theorem shared_point_never_inserts
    (claimant : string) (newTerr : Territory) (prev : list Territory)
    (t : Territory) (p : LatLng) :
  In t prev -> In p (polygon t) -> In p (polygon newTerr) ->
  is_nan (latitude p) = false -> is_nan (longitude p) = false ->
  bboxesOverlap (polygon t) (polygon newTerr) = true
  /\ length (updater claimant newTerr prev) = length prev.
Proof.
  intros Ht Hpt Hpn Hlat Hlon.
  pose proof (shared_point_overlap _ _ p Hpt Hpn Hlat Hlon) as Hov.
  split; [exact Hov|].
  rewrite updater_map.
  assert (Hex : existsb (fun t => bboxesOverlap (polygon t) (polygon newTerr)) prev
                = true).
  { apply existsb_exists. exists t. split; assumption. }
  rewrite Hex. apply length_map.
Qed.

Lemma shared_point_never_inserts_witness :
  In (held "t1" square [mkOwner "C" 1]) [held "t1" square [mkOwner "C" 1]]
  /\ In (pt 0 0 0) square
  /\ is_nan (latitude (pt 0 0 0)) = false
  /\ length (updater "A" (snd (claim "A")) [held "t1" square [mkOwner "C" 1]])
     = 1%nat.
Proof.
  assert (Ht : In (held "t1" square [mkOwner "C" 1]) [held "t1" square [mkOwner "C" 1]])
    by (left; reflexivity).
  assert (Hp : In (pt 0 0 0) square) by (left; reflexivity).
  assert (Hn : is_nan (latitude (pt 0 0 0)) = false) by reflexivity.
  split; [exact Ht|]. split; [exact Hp|]. split; [exact Hn|].
  exact (proj2 (shared_point_never_inserts "A" (snd (claim "A"))
                  [held "t1" square [mkOwner "C" 1]]
                  (held "t1" square [mkOwner "C" 1]) (pt 0 0 0)
                  Ht Hp Hp Hn eq_refl)).
Defined.

(** ** The position watcher *)

Module WatcherFacts.
Import Watcher FloatOrderFacts.

Lemma inaccurate_above_50 (accuracy : option float) :
  inaccurate accuracy = match accuracy with
                        | Some a => 50 <? a
                        | None => false
                        end.
Proof.
  destruct accuracy as [a|]; [|reflexivity].
  unfold inaccurate, gtb, truthy.
  destruct (50 <? a) eqn:E; [|apply andb_false_r].
  destruct (ltb_not_nan _ _ E) as [_ Hnan]. rewrite Hnan.
  unfold is_zero. destruct (a =? zero) eqn:Z; [|reflexivity].
  rewrite (eqb_ltb_r _ _ 50 Z) in E. discriminate E.
Qed.

Section WithHost.
Context {host : Host}.

Lemma appendPoint_adds (p : LatLng) (prev : list LatLng) :
  appendPoint p prev = prev \/ appendPoint p prev = prev ++ [p].
Proof.
  unfold appendPoint.
  destruct (length prev =? 0)%nat eqn:E.
  - apply Nat.eqb_eq in E. apply length_zero_iff_nil in E. subst. right. reflexivity.
  - destruct (nth_error prev (length prev - 1)) as [last|]; [|right; reflexivity].
    destruct (gtb _ _); [left|right]; reflexivity.
Qed.

Lemma appendPoint_hops (p : LatLng) (prev : list LatLng) :
  hopsWithin100 prev -> hopsWithin100 (appendPoint p prev).
Proof.
  intros H. unfold appendPoint.
  destruct (length prev =? 0)%nat eqn:E.
  - intros i a b Ha Hb. simpl in Hb. destruct i; discriminate Hb.
  - apply Nat.eqb_neq in E.
    destruct (nth_error prev (length prev - 1)) as [last|] eqn:L.
    + destruct (gtb (haversine last p) 100) eqn:G; [exact H|].
      intros i a b Ha Hb.
      destruct (Nat.lt_ge_cases (S i) (length prev)) as [Hlt|Hge].
      * rewrite nth_error_app1 in Ha, Hb by lia. exact (H i a b Ha Hb).
      * assert (Hi : S i = length prev).
        { assert (S i < length (prev ++ [p]))%nat
            by (apply nth_error_Some; congruence).
          rewrite length_app in H0. simpl in H0. lia. }
        rewrite nth_error_app1 in Ha by lia.
        rewrite nth_error_app2 in Hb by lia.
        replace (S i - length prev)%nat with 0%nat in Hb by lia.
        replace i with (length prev - 1)%nat in Ha by lia.
        simpl in Hb. inversion Hb. subst b.
        rewrite L in Ha. inversion Ha. subst a. exact G.
    + apply nth_error_None in L. lia.
Qed.

Lemma onPosition_hops (c : Coords) (ts : float) (path : list LatLng) :
  hopsWithin100 path -> hopsWithin100 (onPosition c ts path).
Proof.
  intros H. unfold onPosition.
  destruct (inaccurate (c_accuracy c)); [exact H|].
  apply appendPoint_hops. exact H.
Qed.

Lemma onPosition_adds (c : Coords) (ts : float) (path : list LatLng) :
  exists added, onPosition c ts path = path ++ added /\ (length added <= 1)%nat.
Proof.
  unfold onPosition.
  destruct (inaccurate (c_accuracy c)).
  - exists []. rewrite app_nil_r. split; [reflexivity|simpl; lia].
  - destruct (appendPoint_adds (mkLatLng (c_latitude c) (c_longitude c) ts) path)
      as [E|E]; rewrite E.
    + exists []. rewrite app_nil_r. split; [reflexivity|simpl; lia].
    + eexists. split; [reflexivity|simpl; lia].
Qed.

(** X4. The watcher only appends to the path, at most one point per
    sample, and it keeps every hop of the path within 100 m: if no point
    of the path is more than 100 m from the one before it, the same holds
    after any run of samples. *)
Theorem watch_keeps_hops_within_100
    (samples : list (Coords * float)) (path : list LatLng) :
  hopsWithin100 path ->
  hopsWithin100 (watch samples path)
  /\ exists added, watch samples path = path ++ added
                   /\ (length added <= length samples)%nat.
Proof.
  revert path. induction samples as [|[c ts] samples IH]; intros path H.
  - split; [exact H|]. exists []. rewrite app_nil_r. split; [reflexivity|simpl; lia].
  - unfold watch in *. simpl fold_left.
    destruct (IH _ (onPosition_hops c ts path H)) as (Hh & added & Ha & Hl).
    split; [exact Hh|].
    destruct (onPosition_adds c ts path) as (a1 & E1 & L1).
    exists (a1 ++ added). split.
    + rewrite Ha, E1, app_assoc. reflexivity.
    + rewrite length_app. simpl. lia.
Qed.

(** X5. A position sample is dropped exactly when it reports an accuracy
    above 50: a sample with no accuracy, or with accuracy 0 or NaN, is
    handed to the jump filter, and a dropped sample leaves the path as it
    was. *)
Theorem accuracy_filter_is_above_50
    (c : Coords) (ts : float) (path : list LatLng) :
  inaccurate (c_accuracy c)
  = match c_accuracy c with Some a => 50 <? a | None => false end
  /\ onPosition c ts path
     = if match c_accuracy c with Some a => 50 <? a | None => false end
       then path
       else appendPoint (mkLatLng (c_latitude c) (c_longitude c) ts) path.
Proof.
  split; [apply inaccurate_above_50|].
  unfold onPosition. rewrite inaccurate_above_50. reflexivity.
Qed.

End WithHost.

End WatcherFacts.

Import Fixtures2.

Lemma watch_keeps_hops_within_100_witness :
  @Watcher.hopsWithin100 Reference.host []
  /\ @Watcher.watch Reference.host samples16 [] = walk14
  /\ @Watcher.hopsWithin100 Reference.host walk14.
Proof.
  assert (H0 : @Watcher.hopsWithin100 Reference.host []).
  { intros i p q Hp. destruct i; discriminate Hp. }
  split; [exact H0|].
  assert (Hrun : @Watcher.watch Reference.host samples16 [] = walk14)
    by (vm_compute; reflexivity).
  split; [exact Hrun|].
  rewrite <- Hrun.
  exact (proj1 (@WatcherFacts.watch_keeps_hops_within_100 Reference.host
                  samples16 [] H0)).
Defined.

(** ** The background task *)

Module BackgroundFacts.
Import Background.

Section WithHost.
Context {host : Host}.





End WithHost.

End BackgroundFacts.

(** ** More on the arbitration *)

Module ArbitrationFacts.

#[local] Arguments isOwner : simpl never.

Lemma find_setMyStrength (c : string) (s : float) (os : list TerritoryOwner)
    (mine : TerritoryOwner) :
  find (isOwner c) os = Some mine ->
  find (isOwner c) (setMyStrength c s os) = Some (mkOwner (ownerId mine) s).
Proof.
  induction os as [|o os IH]; simpl; [discriminate|].
  destruct (isOwner c o) eqn:E.
  - intros H. inversion H. subst o. simpl.
    unfold isOwner in *. simpl. rewrite E. reflexivity.
  - intros H. simpl. rewrite E. apply IH. exact H.
Qed.

Lemma others_setMyStrength (c : string) (s : float) (os : list TerritoryOwner) :
  filter (fun o => negb (isOwner c o)) (setMyStrength c s os)
  = filter (fun o => negb (isOwner c o)) os.
Proof.
  induction os as [|o os IH]; simpl; [reflexivity|].
  destruct (isOwner c o) eqn:E; simpl.
  - unfold isOwner in *. simpl. rewrite E. reflexivity.
  - rewrite E, IH. reflexivity.
Qed.

Lemma others_when_absent (c : string) (os : list TerritoryOwner) :
  find (isOwner c) os = None ->
  filter (fun o => negb (isOwner c o)) os = os.
Proof.
  induction os as [|o os IH]; simpl; [reflexivity|].
  destruct (isOwner c o); [discriminate|].
  intros H. simpl. rewrite (IH H). reflexivity.
Qed.

Lemma find_snoc_self (c : string) (s : float) (os : list TerritoryOwner) :
  find (isOwner c) os = None ->
  find (isOwner c) (os ++ [mkOwner c s]) = Some (mkOwner c s).
Proof.
  induction os as [|o os IH]; simpl.
  - intros _. rewrite isOwner_self. reflexivity.
  - destruct (isOwner c o); [discriminate|]. exact IH.
Qed.

Lemma arbitrate_owner_after (c : string) (os : list TerritoryOwner) :
  os <> [] ->
  (exists o, find (isOwner c) (fst (arbitrateOwners c os)) = Some o)
  /\ snd (arbitrateOwners c os) = true.
Proof.
  intros Hne. unfold arbitrateOwners.
  destruct (find (isOwner c) os) as [mine|] eqn:F.
  - destruct (length _ =? 0)%nat; simpl.
    + split; [|reflexivity]. eexists. apply find_setMyStrength. exact F.
    + destruct (geb _ _); [destruct (gtb _ _)|]; simpl; split; try reflexivity;
        eexists; try (apply find_setMyStrength; exact F).
      rewrite isOwner_self. reflexivity.
  - rewrite (others_when_absent c os F).
    destruct (0 <? length os)%nat eqn:L.
    + simpl. split; [|reflexivity].
      eexists. apply find_snoc_self. exact F.
    + destruct os as [|o os]; [congruence|]. simpl in L. discriminate L.
Qed.

Lemma arbitrate_nonempty (c : string) (os : list TerritoryOwner) :
  os <> [] -> fst (arbitrateOwners c os) <> [].
Proof.
  intros Hne H.
  destruct (arbitrate_owner_after c os Hne) as [[o Ho] _].
  rewrite H in Ho. discriminate Ho.
Qed.



(** X8. A capture never changes the record of another owner: either the
    other owners of the territory are, after the arbitration, exactly
    those before it, each with its stored strength and in the same order,
    or they are all evicted and the claimant is left alone at strength
    1.0. *)
Theorem arbitration_keeps_or_evicts_others
    (claimant : string) (os : list TerritoryOwner) :
  filter (fun o => negb (isOwner claimant o)) (fst (arbitrateOwners claimant os))
  = filter (fun o => negb (isOwner claimant o)) os
  \/ fst (arbitrateOwners claimant os) = [mkOwner claimant 1.0].
Proof.
  unfold arbitrateOwners.
  destruct (find (isOwner claimant) os) as [mine|] eqn:F.
  - destruct (length _ =? 0)%nat; simpl.
    + left. apply others_setMyStrength.
    + destruct (geb _ _); [destruct (gtb _ _)|]; simpl;
        [right; reflexivity|left; apply others_setMyStrength
        |left; apply others_setMyStrength].
  - destruct (0 <? length _)%nat; simpl; [|left; reflexivity].
    left. rewrite filter_app. simpl. rewrite isOwner_self. simpl.
    apply app_nil_r.
Qed.

Lemma updater_owned (claimant : string) (newTerr : Territory) (prev : list Territory) :
  owners newTerr = [mkOwner claimant 1] ->
  Forall (fun t => owners t <> [] /\ NoDup (map ownerId (owners t))) prev ->
  Forall (fun t => owners t <> [] /\ NoDup (map ownerId (owners t)))
         (updater claimant newTerr prev).
Proof.
  intros Hnew Hprev.
  assert (Hsettled : Forall (fun t => owners t <> [] /\ NoDup (map ownerId (owners t)))
                       (map (settled claimant (polygon newTerr)) prev)).
  { apply Forall_map.
    apply (Forall_impl _ (P := fun t => owners t <> []
                                        /\ NoDup (map ownerId (owners t))));
      [|exact Hprev].
    intros t [Hne Hnd]. unfold settled.
    destruct (bboxesOverlap (polygon t) (polygon newTerr)); [|split; assumption].
    simpl. split.
    - apply arbitrate_nonempty. exact Hne.
    - apply arbitrateOwners_distinct. exact Hnd. }
  rewrite updater_map.
  destruct (existsb _ prev); [exact Hsettled|].
  constructor; [|exact Hsettled].
  rewrite Hnew. split; [discriminate|].
  simpl. constructor; [intros []|constructor].
Qed.

(** X9. Every store the engine reaches from the empty store by captures
    holds only territories with at least one owner and pairwise distinct
    ownerIds. *)
Theorem reachable_stores_are_owned (ts : list Territory) :
  Reachable ts ->
  Forall (fun t => owners t <> [] /\ NoDup (map ownerId (owners t))) ts.
Proof.
  induction 1 as [|claimant newTerr ts _ IH Hnew]; [constructor|].
  apply updater_owned; assumption.
Qed.

Lemma reachable_stores_are_owned_witness :
  Reachable (captures siege [])
  /\ Forall (fun t => owners t <> [] /\ NoDup (map ownerId (owners t)))
            (captures siege []).
Proof.
  assert (H : Reachable (captures siege [])).
  { apply Reachable_captures; [|constructor]. unfold siege. repeat constructor. }
  split; [exact H|]. exact (reachable_stores_are_owned _ H).
Defined.

End ArbitrationFacts.

(** ** Deleting a session and clearing the territories *)

Module SessionsFacts.
Import Sessions.

Lemma filter_twice (A : Type) (f : A -> bool) (l : list A) :
  filter f (filter f l) = filter f l.
Proof.
  induction l as [|a l IH]; simpl; [reflexivity|].
  destruct (f a) eqn:E; simpl; [rewrite E, IH|]; auto.
Qed.

Lemma filter_swap (A : Type) (f g : A -> bool) (l : list A) :
  filter f (filter g l) = filter g (filter f l).
Proof.
  induction l as [|a l IH]; simpl; [reflexivity|].
  destruct (f a) eqn:F, (g a) eqn:G; simpl; rewrite ?F, ?G, IH; reflexivity.
Qed.

Lemma filter_all (A : Type) (f : A -> bool) (l : list A) :
  find f l = None -> filter (fun a => negb (f a)) l = l.
Proof.
  induction l as [|a l IH]; simpl; [reflexivity|].
  destruct (f a); simpl; [discriminate|].
  intros H. rewrite (IH H). reflexivity.
Qed.

Lemma find_removed (A : Type) (f : A -> bool) (l : list A) :
  find f (filter (fun a => negb (f a)) l) = None.
Proof.
  induction l as [|a l IH]; simpl; [reflexivity|].
  destruct (f a) eqn:E; simpl; [|rewrite E]; exact IH.
Qed.

Lemma find_among_rest (A : Type) (f g : A -> bool) (l : list A) :
  (forall a, f a = true -> g a = true) ->
  find f (filter g l) = find f l.
Proof.
  intros H. induction l as [|a l IH]; simpl; [reflexivity|].
  destruct (f a) eqn:F.
  - rewrite (H a F). simpl. rewrite F. reflexivity.
  - destruct (g a); simpl; [rewrite F|]; exact IH.
Qed.

Lemma spares_unowned (owner : string) (f : Territory -> bool) (ts : list Territory) :
  (forall t, f t = false -> ownedBy owner t = true) ->
  clearAllTerritories owner (filter f ts) = clearAllTerritories owner ts.
Proof.
  intros H. unfold clearAllTerritories.
  induction ts as [|t ts IH]; simpl; [reflexivity|].
  destruct (f t) eqn:F; simpl.
  - rewrite IH. reflexivity.
  - rewrite (H t F). simpl. exact IH.
Qed.

(** X10. Deleting a session never touches a territory the user does not
    own: what [clearAllTerritories] would keep is the same before and
    after the deletion, so the territories of the other players stay, in
    their order.  With no session of that id, sessions and territories
    are left as they are. *)
Theorem deleteSession_spares_other_players
    (sessionId owner : string) (sessions : list Session) (territories : list Territory) :
  clearAllTerritories owner (snd (deleteSession sessionId owner sessions territories))
  = clearAllTerritories owner territories
  /\ (find (fun s => String.eqb (session_id s) sessionId) sessions = None ->
      deleteSession sessionId owner sessions territories = (sessions, territories)).
Proof.
  unfold deleteSession. split.
  - destruct (find _ sessions) as [s|]; simpl; [|reflexivity].
    apply spares_unowned. intros t H.
    apply negb_false_iff in H. unfold capturedIn in H.
    apply andb_true_iff in H. destruct H as [_ H]. exact H.
  - intros H. rewrite H. f_equal.
    apply (filter_all _ (fun s => String.eqb (session_id s) sessionId)). exact H.
Qed.

(** X11. Deleting a session is idempotent, and deleting two sessions of
    different ids gives the same sessions and territories in either
    order. *)
Theorem deleteSession_idempotent_and_commutes
    (a b owner : string) (sessions : list Session) (territories : list Territory) :
  (let r := deleteSession a owner sessions territories in
   deleteSession a owner (fst r) (snd r) = r)
  /\ (a <> b ->
      let r := deleteSession a owner sessions territories in
      let r' := deleteSession b owner sessions territories in
      deleteSession b owner (fst r) (snd r) = deleteSession a owner (fst r') (snd r')).
Proof.
  split.
  - cbv zeta. unfold deleteSession.
    destruct (find (fun s => String.eqb (session_id s) a) sessions) as [s|];
      simpl;
      rewrite (find_removed _ (fun s => String.eqb (session_id s) a)), filter_twice;
      reflexivity.
  - intros Hab. cbv zeta.
    assert (Hfa : forall l,
               find (fun s => String.eqb (session_id s) a)
                    (filter (fun s => negb (String.eqb (session_id s) b)) l)
               = find (fun s => String.eqb (session_id s) a) l).
    { intros l. apply find_among_rest. intros s E.
      apply String.eqb_eq in E. apply negb_true_iff. apply String.eqb_neq.
      congruence. }
    assert (Hfb : forall l,
               find (fun s => String.eqb (session_id s) b)
                    (filter (fun s => negb (String.eqb (session_id s) a)) l)
               = find (fun s => String.eqb (session_id s) b) l).
    { intros l. apply find_among_rest. intros s E.
      apply String.eqb_eq in E. apply negb_true_iff. apply String.eqb_neq.
      congruence. }
    unfold deleteSession.
    destruct (find (fun s => String.eqb (session_id s) a) sessions) as [sa|] eqn:Fa;
      destruct (find (fun s => String.eqb (session_id s) b) sessions) as [sb|] eqn:Fb;
      simpl; rewrite Hfa, Hfb, Fa, Fb; f_equal;
      try apply filter_swap.
Qed.

End SessionsFacts.

(** ** The shape of a capture *)

Module CaptureFacts.
Import LoopDetector Arbitration.

Section WithHost.
Context {host : Host}.

Lemma capture_shape (m : ActivityMode) (claimant newId : string) (now : float)
    (st : ProviderState) (c : Capture) :
  detect (smoothPath (path st) 3) = Some c ->
  let after := loopDetectionEffect (Some m) claimant newId now st in
  lastCaptured after = Some (newTerritory newId m (capturedPolygon c) now claimant)
  /\ (11 <= length (capturedPolygon c))%nat
  /\ (1 <= length (path after))%nat
  /\ (length (path after) + 10 <= length (path st))%nat
  /\ nth_error (path after) (length (path after) - 1)
     = nth_error (capturedPolygon c) 0
  /\ geb (polygonAreaM2 (capturedPolygon c)) MIN_TERRITORY_AREA_M2 = true.
Proof.
  intros Hd after. subst after.
  rewrite (effect_capture m claimant newId now st c Hd). cbn [path lastCaptured].
  apply detect_some in Hd.
  destruct Hd as (_ & Hf & Hp & Ha & Hge).
  apply findLoop_some in Hf. destruct Hf as (Hi & _).
  rewrite smoothPath_length in Hi.
  assert (Hlen : length (firstn (loopStartIdx c + 1) (smoothPath (path st) 3))
                 = (loopStartIdx c + 1)%nat).
  { rewrite length_firstn, smoothPath_length. lia. }
  rewrite Hlen.
  split; [reflexivity|]. split.
  { rewrite Hp, length_skipn, smoothPath_length. lia. }
  split; [lia|]. split; [lia|]. split.
  - rewrite Hp, nth_error_firstn, nth_error_skipn.
    replace (loopStartIdx c + 1 - 1)%nat with (loopStartIdx c) by lia.
    replace (loopStartIdx c + 0)%nat with (loopStartIdx c) by lia.
    destruct (loopStartIdx c <? loopStartIdx c + 1)%nat eqn:E; [reflexivity|].
    apply Nat.ltb_ge in E. lia.
  - rewrite <- Ha. exact Hge.
Qed.

(** X12. Whenever the effect switches the capture badge on, the captured
    territory has a polygon of at least 11 points that encloses at least
    30 square metres and belongs to the claimant alone at strength 1; the
    tracked path is cut by at least 10 points, is not empty, and ends at
    the first point of the polygon, the point where the loop closed. *)
Theorem capture_cuts_path_at_closing_point
    (mode : option ActivityMode) (claimant newId : string) (now : float)
    (st : ProviderState) :
  loopCaptured st = false ->
  loopCaptured (loopDetectionEffect mode claimant newId now st) = true ->
  exists t,
    lastCaptured (loopDetectionEffect mode claimant newId now st) = Some t
    /\ owners t = [mkOwner claimant 1]
    /\ (11 <= length (polygon t))%nat
    /\ geb (polygonAreaM2 (polygon t)) MIN_TERRITORY_AREA_M2 = true
    /\ (1 <= length (path (loopDetectionEffect mode claimant newId now st)))%nat
    /\ (length (path (loopDetectionEffect mode claimant newId now st)) + 10
        <= length (path st))%nat
    /\ nth_error (path (loopDetectionEffect mode claimant newId now st))
         (length (path (loopDetectionEffect mode claimant newId now st)) - 1)
       = nth_error (polygon t) 0.
Proof.
  intros Hoff Hon.
  destruct mode as [m|]; [|simpl in Hon; congruence].
  destruct (detect (smoothPath (path st) 3)) as [c|] eqn:Hd.
  - destruct (capture_shape m claimant newId now st c Hd)
      as (Hlast & Hpoly & Hone & Hcut & Hend & Harea).
    exists (newTerritory newId m (capturedPolygon c) now claimant).
    simpl. repeat split; assumption.
  - rewrite (effect_no_capture m claimant newId now st Hd) in Hon. congruence.
Qed.

End WithHost.

End CaptureFacts.

Lemma capture_cuts_path_at_closing_point_witness :
  exists t,
    lastCaptured (@LoopDetector.loopDetectionEffect Reference.host (Some walk) "A" "fresh"
                    1700000040000 (stateOf walk14 [])) = Some t
    /\ (11 <= length (polygon t))%nat.
Proof.
  destruct (@CaptureFacts.capture_cuts_path_at_closing_point Reference.host
              (Some walk) "A" "fresh" 1700000040000 (stateOf walk14 [])
              eq_refl
              ltac:(vm_compute; reflexivity))
    as (t & H1 & _ & H2 & _).
  exists t. split; assumption.
Defined.

(** ** The session life cycle *)

Module LifecycleFacts.
Import Sessions Lifecycle Run FloatOrderFacts.

Section WithHost.
Context {host : Host}.
Variable numberToString : float -> string.

Lemma distanceEffect_session (t : Tracker) : sameSession t (distanceEffect t).
Proof.
  unfold sameSession, distanceEffect.
  destruct (currentMode t) as [m|] eqn:M; [|rewrite ?M; auto].
  destruct (length (path (provider t)) <? 2)%nat; [rewrite ?M; auto|].
  destruct m; simpl; auto.
  destruct (_ <=? _); simpl; rewrite ?M; auto.
Qed.

Lemma achievements_session (now : Achievements.Award -> float) (t : Tracker) :
  sameSession t (Achievements.effect now t).
Proof.
  unfold sameSession, Achievements.effect.
  destruct (state t) eqn:S; rewrite ?S; auto.
  destruct (currentMode t) eqn:M; simpl; rewrite ?S, ?M; auto.
Qed.

Lemma tick_session (now : float) (t : Tracker) : sameSession t (tick now t).
Proof.
  unfold sameSession, tick.
  destruct (state t) eqn:S; rewrite ?S; auto.
  destruct (sessionStartAt t) eqn:A; rewrite ?S, ?A; auto.
  destruct (Watcher.truthy f); simpl; rewrite ?S, ?A; auto.
Qed.

Lemma startPedometer_session (available : bool) (t : Tracker) :
  sameSession t (startPedometer available t).
Proof. unfold sameSession, startPedometer. destruct available; simpl; auto. Qed.

Lemma started_same (t t' : Tracker) : sameSession t t' -> started t -> started t'.
Proof.
  unfold sameSession, started. intros (-> & -> & -> & _) H. exact H.
Qed.

Lemma step_started (t : Tracker) (e : Event) :
  started t -> started (step numberToString t e).
Proof.
  intros H. destruct e; simpl.
  - unfold start. destruct (state t) eqn:S; [|exact H|exact H].
    unfold started. simpl. split; [split; discriminate|]. intros _. eauto.
  - unfold started, watchFailed. simpl. split; [split; reflexivity|]. congruence.
  - apply (started_same t); [apply startPedometer_session|exact H].
  - exact H.
  - unfold pause. destruct (state t) eqn:S; [exact H| |exact H].
    destruct H as [H1 H2]. unfold started. simpl. rewrite S in *. split.
    + split; [discriminate|]. intros M. apply H1 in M. discriminate.
    + intros _. apply H2. discriminate.
  - unfold resume. destruct (state t) eqn:S; [exact H|exact H|].
    destruct (currentMode t) as [m|] eqn:M; [|exact H].
    destruct H as [H1 H2]. unfold started. simpl. split.
    + rewrite ?M. split; discriminate.
    + intros _. apply H2. rewrite ?S. discriminate.
  - unfold stop. destruct (state t) eqn:S; [exact H| |];
      (unfold started; simpl; split; [split; reflexivity|congruence]).
  - apply (started_same t); [apply tick_session|exact H].
  - exact H.
  - apply (started_same t); [apply distanceEffect_session|exact H].
  - exact H.
  - apply (started_same t); [apply achievements_session|exact H].
Qed.

Lemma run_started (es : list Event) (t : Tracker) :
  started t -> started (runEvents numberToString es t).
Proof.
  revert t. induction es as [|e es IH]; intros t H; simpl; [exact H|].
  apply IH. apply step_started. exact H.
Qed.

Lemma initial_started (ts : list Territory) (ss : list Session) :
  started (initial ts ss).
Proof.
  unfold started, initial. simpl. split; [split; reflexivity|congruence].
Qed.

(** X13. From the initial tracker, whatever the user, the platform and
    the effects do, the mode is null exactly when the state is idle, and
    the session has a start time whenever the state is active or
    paused. *)
Theorem tracker_mode_follows_state
    (es : list Event) (ts : list Territory) (ss : list Session) :
  let t := runEvents numberToString es (initial ts ss) in
  (state t = idle <-> currentMode t = None)
  /\ (state t <> idle -> exists s, sessionStartAt t = Some s).
Proof.
  intros t. exact (run_started es (initial ts ss) (initial_started ts ss)).
Qed.

(** X14. In every tracker a run reaches in which a session is under way,
    [stop] goes back to idle and puts in front of the stored sessions one
    session, which carries the current mode, the start time set by
    [start], the tracked path and the rounded distance: the fallbacks of
    the mode to walk and of the start time are never taken. *)
Theorem stop_saves_the_started_session
    (es : list Event) (ts : list Territory) (ss : list Session)
    (now : float) (seen : list AchievementEarned) :
  state (runEvents numberToString es (initial ts ss)) <> idle ->
  exists m s,
    currentMode (runEvents numberToString es (initial ts ss)) = Some m
    /\ sessionStartAt (runEvents numberToString es (initial ts ss)) = Some s
    /\ state (stop numberToString now seen
                (runEvents numberToString es (initial ts ss))) = idle
    /\ sessions (stop numberToString now seen
                   (runEvents numberToString es (initial ts ss)))
       = mkSession (numberToString now) m
           (path (provider (runEvents numberToString es (initial ts ss))))
           (Math_round (distance (runEvents numberToString es (initial ts ss))))
           s now (if (0 <? length seen)%nat then Some seen else None)
         :: sessions (runEvents numberToString es (initial ts ss)).
Proof.
  intros Hrun.
  destruct (run_started es (initial ts ss) (initial_started ts ss)) as [H1 H2].
  destruct (H2 Hrun) as [s Hs].
  destruct (currentMode (runEvents numberToString es (initial ts ss)))
    as [m|] eqn:M; [|exfalso; apply Hrun; apply H1; reflexivity].
  exists m, s. split; [reflexivity|]. split; [exact Hs|].
  unfold stop, sessionOf.
  destruct (state (runEvents numberToString es (initial ts ss)));
    [congruence| |]; simpl; rewrite Hs, M; auto.
Qed.

Lemma step_elapsed (t : Tracker) (e : Event) :
  (elapsedMs t <? 0) = false /\ is_nan (elapsedMs t) = false ->
  (elapsedMs (step numberToString t e) <? 0) = false
  /\ is_nan (elapsedMs (step numberToString t e)) = false.
Proof.
  intros H. destruct e; simpl; try exact H.
  - unfold start. destruct (state t); try exact H. simpl. split; reflexivity.
  - unfold startPedometer. destruct available; exact H.
  - unfold pause. destruct (state t); exact H.
  - unfold resume. destruct (state t); try exact H.
    destruct (currentMode t); exact H.
  - unfold stop. destruct (state t); try exact H; simpl; split; reflexivity.
  - unfold tick. destruct (state t); try exact H.
    destruct (sessionStartAt t) as [s|]; try exact H.
    destruct (Watcher.truthy s); try exact H. simpl.
    destruct (gtb _ 0) eqn:G; [|split; reflexivity].
    unfold gtb in G. split.
    + apply ltb_asym. exact G.
    + apply (ltb_not_nan _ _ G).
  - unfold distanceEffect.
    destruct (currentMode t) as [m|]; try exact H.
    destruct (length _ <? 2)%nat; try exact H.
    destruct m; simpl; try exact H.
    destruct (_ <=? _); exact H.
  - unfold Achievements.effect. destruct (state t); try exact H.
    destruct (currentMode t); exact H.
Qed.

(** X15. The elapsed time shown is never negative and never NaN, whatever
    the clock returns, also a time before the start or NaN. *)
Theorem elapsed_time_is_never_negative
    (es : list Event) (ts : list Territory) (ss : list Session) :
  (elapsedMs (runEvents numberToString es (initial ts ss)) <? 0) = false
  /\ is_nan (elapsedMs (runEvents numberToString es (initial ts ss))) = false.
Proof.
  assert (H : (elapsedMs (initial ts ss) <? 0) = false
              /\ is_nan (elapsedMs (initial ts ss)) = false)
    by (split; reflexivity).
  revert H. generalize (initial ts ss).
  induction es as [|e es IH]; intros t H; simpl; [exact H|].
  apply IH. apply step_elapsed. exact H.
Qed.

(** X22. The time spent paused is not counted: for a session started at
    [s], paused at [p] and resumed at [r], the elapsed time shown at [n]
    is [n - s - (0 + (r - p))], or 0 when that is not positive; and while
    the session is paused the timer leaves the elapsed time as it is. *)
Theorem paused_time_is_not_counted
    (t : Tracker) (m : ActivityMode) (s p r n : float) :
  state t = idle ->
  Watcher.truthy s = true ->
  Watcher.truthy p = true ->
  elapsedMs (tick n (resume r (pause p (start m s t))))
  = (if gtb (n - s - (0 + (r - p))) 0 then n - s - (0 + (r - p)) else 0)
  /\ elapsedMs (tick n (pause p (start m s t))) = elapsedMs (start m s t).
Proof.
  intros Hidle Hs Hp.
  unfold start. rewrite Hidle.
  unfold pause. simpl.
  unfold resume. simpl. rewrite Hp.
  unfold tick. simpl. rewrite Hs. simpl.
  split; reflexivity.
Qed.

Lemma steps_counted (ns : list float) (t : Tracker) :
  currentMode (runEvents numberToString (map Steps ns) t) = currentMode t
  /\ path (provider (runEvents numberToString (map Steps ns) t)) = path (provider t)
  /\ stepCount (runEvents numberToString (map Steps ns) t)
     = fold_left PrimFloat.add ns (stepCount t).
Proof.
  revert t. induction ns as [|n ns IH]; intros t; simpl; [auto|].
  destruct (IH (onSteps n t)) as (H1 & H2 & H3).
  unfold runEvents in *. rewrite H1, H2, H3. simpl. auto.
Qed.

(** X18. After a pause of a walk or a run on a device with a pedometer,
    the distance counts only the steps taken since [resume]: once the
    pedometer has been started again, the next update of the distance
    sets it to the sum of the step counts received since, times the
    stride (0.762 m for a walk, 0.914 m for a run), whatever the distance
    before the pause. *)
Theorem resume_restarts_the_step_distance
    (t : Tracker) (now : float) (ns : list float) (m : ActivityMode) :
  state t = paused ->
  currentMode t = Some m ->
  m <> cycle ->
  (2 <= length (path (provider t)))%nat ->
  distance (distanceEffect
              (runEvents numberToString (map Steps ns)
                 (startPedometer true (resume now t))))
  = fold_left PrimFloat.add ns 0 * match m with walk => 0.762 | _ => 0.914 end.
Proof.
  intros Hs Hm Hc Hlen.
  destruct (steps_counted ns (startPedometer true (resume now t)))
    as (H1 & H2 & H3).
  unfold distanceEffect. rewrite H1, H2, H3.
  unfold resume. rewrite Hs, Hm. simpl. rewrite ?Hm.
  destruct (length (path (provider t)) <? 2)%nat eqn:L;
    [apply Nat.ltb_lt in L; lia|].
  destruct m; simpl; [reflexivity|reflexivity|congruence].
Qed.

End WithHost.

End LifecycleFacts.

Lemma stop_saves_the_started_session_witness :
  exists m s,
    Lifecycle.currentMode
      (@Run.runEvents Reference.host stamp stroll (Lifecycle.initial [] []))
    = Some m
    /\ Lifecycle.sessionStartAt
         (@Run.runEvents Reference.host stamp stroll (Lifecycle.initial [] []))
       = Some s.
Proof.
  assert (H : Lifecycle.state
                (@Run.runEvents Reference.host stamp stroll (Lifecycle.initial [] []))
              <> Lifecycle.idle) by (vm_compute; discriminate).
  destruct (@LifecycleFacts.stop_saves_the_started_session Reference.host stamp
              stroll [] [] 1700000100000 [] H) as (m & s & Hm & Hs & _).
  exists m, s. split; assumption.
Defined.

Lemma paused_time_is_not_counted_witness :
  Lifecycle.elapsedMs
    (Lifecycle.tick 1700000100000
       (Lifecycle.resume 1700000060000
          (Lifecycle.pause 1700000020000
             (Lifecycle.start walk 1700000000000 (Lifecycle.initial [] [])))))
  = 60000.
Proof.
  rewrite (proj1 (LifecycleFacts.paused_time_is_not_counted
                    (Lifecycle.initial [] []) walk
                    1700000000000 1700000020000 1700000060000 1700000100000
                    eq_refl eq_refl eq_refl)).
  reflexivity.
Defined.

Lemma resume_restarts_the_step_distance_witness :
  Lifecycle.distance
    (@Run.runEvents Reference.host stamp (stroll ++ [Run.Pause 1700000020000])
       (Lifecycle.initial [] []))
  = 1676.4
  /\ Lifecycle.distance
       (@Lifecycle.distanceEffect Reference.host
          (@Run.runEvents Reference.host stamp (map Run.Steps [10; 20])
             (Lifecycle.startPedometer true
                (Lifecycle.resume 1700000030000
                   (@Run.runEvents Reference.host stamp
                      (stroll ++ [Run.Pause 1700000020000])
                      (Lifecycle.initial [] []))))))
     = (0 + 10 + 20) * 0.762.
Proof.
  split; [vm_compute; reflexivity|].
  rewrite (@LifecycleFacts.resume_restarts_the_step_distance Reference.host stamp
             (@Run.runEvents Reference.host stamp (stroll ++ [Run.Pause 1700000020000])
                (Lifecycle.initial [] []))
             1700000030000 [10; 20] walk).
  - vm_compute. reflexivity.
  - vm_compute. reflexivity.
  - vm_compute. reflexivity.
  - discriminate.
  - vm_compute. lia.
Defined.

(** ** Achievements *)

Module AchievementsFacts.
Import Sessions Lifecycle Achievements Run FloatOrderFacts.

Lemma sameValueZero_refl (x : float) : sameValueZero x x = true.
Proof.
  unfold sameValueZero. destruct (is_nan x) eqn:N.
  - simpl. apply orb_true_r.
  - assert (E : (x =? x) = true) by (apply eqb_key; auto).
    rewrite E. reflexivity.
Qed.

Lemma has_snoc (set : list float) (x y : float) :
  has (set ++ [x]) y = has set y || sameValueZero x y.
Proof.
  unfold has. rewrite existsb_app. simpl. rewrite orb_false_r. reflexivity.
Qed.

Lemma has_false (set : list float) (y : float) :
  has set y = false ->
  forall i x, nth_error set i = Some x -> sameValueZero x y = false.
Proof.
  unfold has. intros H i x Hx.
  destruct (sameValueZero x y) eqn:E; [|reflexivity].
  assert (F : existsb (fun z => sameValueZero z y) set = true).
  { apply existsb_exists. exists x. split; [|exact E].
    apply (nth_error_In _ _ Hx). }
  congruence.
Qed.

Lemma has_true (set : list float) (y : float) :
  has set y = true -> exists x, In x set /\ sameValueZero x y = true.
Proof. unfold has. intros H. apply existsb_exists in H. exact H. Qed.

Lemma distinct_snoc (set : list float) (x : float) :
  distinctMiles set -> has set x = false -> distinctMiles (set ++ [x]).
Proof.
  intros Hd Hx i j a b Hij Ha Hb.
  assert (Hj : (j < length (set ++ [x]))%nat)
    by (apply nth_error_Some; congruence).
  rewrite length_app in Hj. simpl in Hj.
  rewrite nth_error_app1 in Ha by lia.
  destruct (Nat.eq_dec j (length set)) as [->|Hne].
  - rewrite nth_error_app2, Nat.sub_diag in Hb by lia. simpl in Hb.
    inversion Hb. subst b. apply (has_false set x Hx i a Ha).
  - rewrite nth_error_app1 in Hb by lia. apply (Hd i j a b Hij Ha Hb).
Qed.

Lemma earn_kept (m : ActivityMode) (cur : float) (now : Award -> float)
    (acc : list float * list AchievementEarned) (award : Award) :
  In award (awardList m) -> kept m acc -> kept m (earn cur now acc award).
Proof.
  intros Hin (Hmap & Hd & Hf). unfold earn.
  destruct (geb cur (award_miles award)); simpl; [|repeat split; assumption].
  destruct (has (fst acc) (award_miles award)) eqn:Hhas; simpl;
    [repeat split; assumption|].
  unfold kept. simpl. split; [|split].
  - rewrite map_app, Hmap. reflexivity.
  - apply distinct_snoc; assumption.
  - apply Forall_app. split; [exact Hf|].
    constructor; [|constructor].
    exists award. simpl. auto.
Qed.

Lemma loop_kept (m : ActivityMode) (cur : float) (now : Award -> float)
    (awards : list Award) (acc : list float * list AchievementEarned) :
  (forall award, In award awards -> In award (awardList m)) ->
  kept m acc -> kept m (fold_left (earn cur now) awards acc).
Proof.
  revert acc. induction awards as [|award awards IH]; intros acc Hsub H; simpl;
    [exact H|].
  apply IH.
  - intros a Ha. apply Hsub. right. exact Ha.
  - apply earn_kept; [apply Hsub; left; reflexivity|exact H].
Qed.

Lemma earn_has (cur : float) (now : Award -> float)
    (acc : list float * list AchievementEarned) (award : Award) (x : float) :
  has (fst acc) x = true -> has (fst (earn cur now acc award)) x = true.
Proof.
  intros H. unfold earn.
  destruct (_ && _); [|exact H].
  simpl. rewrite has_snoc, H. reflexivity.
Qed.

Lemma loop_has (cur : float) (now : Award -> float) (awards : list Award)
    (acc : list float * list AchievementEarned) (x : float) :
  has (fst acc) x = true ->
  has (fst (fold_left (earn cur now) awards acc)) x = true.
Proof.
  revert acc. induction awards as [|award awards IH]; intros acc H; simpl;
    [exact H|].
  apply IH. apply earn_has. exact H.
Qed.

Lemma loop_earns (cur : float) (now : Award -> float) (awards : list Award)
    (acc : list float * list AchievementEarned) (award : Award) :
  In award awards -> geb cur (award_miles award) = true ->
  has (fst (fold_left (earn cur now) awards acc)) (award_miles award) = true.
Proof.
  revert acc. induction awards as [|a awards IH]; intros acc Hin Hge; simpl;
    [contradiction|].
  destruct Hin as [->|Hin]; [|apply IH; assumption].
  apply loop_has. unfold earn. rewrite Hge. simpl.
  destruct (has (fst acc) (award_miles award)) eqn:H; simpl; [exact H|].
  rewrite has_snoc, sameValueZero_refl. apply orb_true_r.
Qed.

(** Two rows of one table whose miles are the same for [has] are the same
    row. *)
Lemma table_rows_differ (m : ActivityMode) (a b : Award) :
  In a (awardList m) -> In b (awardList m) ->
  sameValueZero (award_miles a) (award_miles b) = true -> a = b.
Proof.
  destruct m; simpl; intros Ha Hb;
    repeat (destruct Ha as [<-|Ha]; [|]); try contradiction;
    repeat (destruct Hb as [<-|Hb]; [|]); try contradiction;
    vm_compute; intros H; first [reflexivity|discriminate H].
Qed.

Section WithHost.
Context {host : Host}.
Variable numberToString : float -> string.

Lemma awarded_empty (set : list float) (l : list AchievementEarned)
    (mode : option ActivityMode) :
  set = [] -> l = [] ->
  map miles l = set /\ distinctMiles set
  /\ forall m, mode = Some m -> Forall (fromTable m) l.
Proof.
  intros -> ->. split; [reflexivity|]. split.
  - intros i j x y _ Hx. destruct i; discriminate Hx.
  - intros m _. constructor.
Qed.

Lemma step_awarded (t : Tracker) (e : Event) :
  awarded t -> awarded (step numberToString t e).
Proof.
  intros H. destruct e; simpl; try exact H.
  - unfold start. destruct (state t); try exact H.
    unfold awarded. simpl. exact (awarded_empty [] [] _ eq_refl eq_refl).
  - destruct H as (H1 & H2 & _). unfold awarded, watchFailed. simpl.
    split; [exact H1|]. split; [exact H2|]. discriminate.
  - unfold startPedometer. destruct available; exact H.
  - unfold pause. destruct (state t); exact H.
  - unfold resume. destruct (state t); try exact H.
    destruct (currentMode t) eqn:M; [|exact H].
    unfold awarded in *. simpl. rewrite M in H. exact H.
  - unfold stop. destruct (state t); try exact H;
      unfold awarded; simpl; exact (awarded_empty [] [] _ eq_refl eq_refl).
  - unfold tick. destruct (state t); try exact H.
    destruct (sessionStartAt t) as [s|]; try exact H.
    destruct (Watcher.truthy s); exact H.
  - unfold distanceEffect.
    destruct (currentMode t) as [m|] eqn:M; try exact H.
    destruct (length _ <? 2)%nat; try exact H.
    unfold awarded in *. rewrite M in H.
    destruct m; simpl; try exact H.
    destruct (_ <=? _); simpl; rewrite ?M; exact H.
  - unfold Achievements.effect. destruct (state t); try exact H.
    destruct (currentMode t) as [m|] eqn:M; [|exact H].
    destruct H as (H1 & H2 & H3).
    destruct (loop_kept m (distance t / 1609.344) now (awardList m)
                (achievedMilestones t, sessionAchievements t)
                (fun a Ha => Ha)
                (conj H1 (conj H2 (H3 m M))))
      as (K1 & K2 & K3).
    unfold awarded. simpl. split; [exact K1|]. split; [exact K2|].
    intros m' Hm'. inversion Hm'. subst m'. exact K3.
Qed.

Lemma run_awarded (es : list Event) (t : Tracker) :
  awarded t -> awarded (runEvents numberToString es t).
Proof.
  revert t. induction es as [|e es IH]; intros t H; simpl; [exact H|].
  apply IH. apply step_awarded. exact H.
Qed.

Lemma initial_awarded (ts : list Territory) (ss : list Session) :
  awarded (initial ts ss).
Proof. unfold awarded, initial. simpl. exact (awarded_empty [] [] _ eq_refl eq_refl). Qed.

(** X16. In every tracker a run reaches, no milestone is earned twice:
    the achievements of the session have pairwise different miles, in the
    sense of the set that guards them; their miles are, in order, the
    milestones of that set; and while a mode is set each of them is a row
    of the award table of that mode. *)
Theorem no_award_is_earned_twice
    (es : list Event) (ts : list Territory) (ss : list Session) :
  let t := runEvents numberToString es (initial ts ss) in
  map miles (sessionAchievements t) = achievedMilestones t
  /\ (forall i j a b, (i < j)%nat ->
        nth_error (sessionAchievements t) i = Some a ->
        nth_error (sessionAchievements t) j = Some b ->
        sameValueZero (miles a) (miles b) = false)
  /\ (forall m a, currentMode t = Some m -> In a (sessionAchievements t) ->
        exists award, In award (awardList m)
          /\ miles a = award_miles award /\ imageUrl a = award_imageUrl award).
Proof.
  intros t.
  destruct (run_awarded es (initial ts ss) (initial_awarded ts ss))
    as (H1 & H2 & H3).
  fold t in H1, H2, H3.
  split; [exact H1|]. split.
  - intros i j a b Hij Ha Hb. apply (H2 i j); [exact Hij| |].
    + rewrite <- H1, nth_error_map, Ha. reflexivity.
    + rewrite <- H1, nth_error_map, Hb. reflexivity.
  - intros m a Hm Ha.
    pose proof (H3 m Hm) as F. rewrite Forall_forall in F. exact (F a Ha).
Qed.

(** X17. In every active tracker a run reaches, once the achievement
    effect has run, the session holds an achievement for every row of the
    table of the mode whose miles the distance has reached, with the
    miles and the image of that row. *)
Theorem effect_earns_every_award_within_distance
    (es : list Event) (ts : list Territory) (ss : list Session)
    (now : Award -> float) (m : ActivityMode) (award : Award) :
  state (runEvents numberToString es (initial ts ss)) = active ->
  currentMode (runEvents numberToString es (initial ts ss)) = Some m ->
  In award (awardList m) ->
  geb (distance (runEvents numberToString es (initial ts ss)) / 1609.344)
      (award_miles award) = true ->
  exists a,
    In a (sessionAchievements
            (Achievements.effect now (runEvents numberToString es (initial ts ss))))
    /\ miles a = award_miles award /\ imageUrl a = award_imageUrl award.
Proof.
  intros Hs Hm Hin Hge.
  destruct (run_awarded es (initial ts ss) (initial_awarded ts ss))
    as (H1 & H2 & H3).
  unfold Achievements.effect. rewrite Hs, Hm. simpl.
  destruct (loop_kept m
              (distance (runEvents numberToString es (initial ts ss)) / 1609.344)
              now (awardList m)
              (achievedMilestones (runEvents numberToString es (initial ts ss)),
               sessionAchievements (runEvents numberToString es (initial ts ss)))
              (fun a Ha => Ha)
              (conj H1 (conj H2 (H3 m Hm))))
    as (K1 & _ & K3).
  pose proof (loop_earns
                (distance (runEvents numberToString es (initial ts ss)) / 1609.344)
                now (awardList m)
                (achievedMilestones (runEvents numberToString es (initial ts ss)),
                 sessionAchievements (runEvents numberToString es (initial ts ss)))
                award Hin Hge) as Hhas.
  apply has_true in Hhas. destruct Hhas as (x & Hx & Hsame).
  rewrite <- K1 in Hx. apply in_map_iff in Hx. destruct Hx as (a & Ha & Hina).
  exists a. split; [exact Hina|].
  rewrite Forall_forall in K3. destruct (K3 a Hina) as (row & Hrow & Hmiles & Himg).
  subst x. rewrite Hmiles in Hsame.
  pose proof (table_rows_differ m row award Hrow Hin Hsame) as E. subst row.
  split; assumption.
Qed.

End WithHost.

End AchievementsFacts.

Lemma effect_earns_every_award_within_distance_witness :
  exists a,
    In a (Lifecycle.sessionAchievements
            (Achievements.effect (fun _ => 1700000050000)
               (@Run.runEvents Reference.host stamp stroll (Lifecycle.initial [] []))))
    /\ Sessions.miles a = 1.
Proof.
  destruct (@AchievementsFacts.effect_earns_every_award_within_distance
              Reference.host stamp stroll [] [] (fun _ => 1700000050000) walk
              (Achievements.mkAward 1
                 "https://images.unsplash.com/photo-1520975922203-bc4c4ad6a6d6?q=80&w=1600&auto=format&fit=crop")
              ltac:(vm_compute; reflexivity)
              ltac:(vm_compute; reflexivity)
              ltac:(left; reflexivity)
              ltac:(vm_compute; reflexivity))
    as (a & Ha & Hm & _).
  exists a. split; assumption.
Defined.

(** ** What the smoothing computes *)

Module SmoothingFacts.

Lemma for_range_push_nth (A : Type) (f : nat -> A) (count lo : nat) (acc : list A)
    (k : nat) :
  (k < count)%nat ->
  nth_error (for_range count lo (fun i out => out ++ [f i]) acc) (length acc + k)
  = Some (f (lo + k)%nat).
Proof.
  revert lo acc k. induction count as [|count IH]; intros lo acc k Hk; [lia|].
  simpl. destruct k as [|k].
  - assert (Hkeep : forall c l (out : list A) x,
              nth_error out (length acc + 0) = Some x ->
              nth_error (for_range c l (fun i o => o ++ [f i]) out) (length acc + 0)
              = Some x).
    { induction c as [|c IHc]; intros l out x Hx; simpl; [exact Hx|].
      apply IHc. rewrite nth_error_app1; [exact Hx|].
      apply nth_error_Some. congruence. }
    apply Hkeep.
    rewrite nth_error_app2, Nat.add_0_r, Nat.sub_diag by lia.
    rewrite Nat.add_0_r. reflexivity.
  - replace (length acc + S k)%nat with (length (acc ++ [f lo]) + k)%nat
      by (rewrite length_app; simpl; lia).
    rewrite IH by lia. f_equal. f_equal. lia.
Qed.

Section WithHost.
Context {host : Host}.

Lemma half_of_3 : Math_floor (Math_max 2 (Math_min 3 5) / 2) = Some 1%Z.
Proof. vm_compute. reflexivity. Qed.

Lemma smoothPath_nth (points : list LatLng) (i : nat) :
  (2 < length points)%nat -> (i < length points)%nat ->
  nth_error (smoothPath points 3) i = Some (smoothPoint points (Some 1%Z) i).
Proof.
  intros Hlen Hi. unfold smoothPath.
  destruct (length points <=? 2)%nat eqn:E; [apply Nat.leb_le in E; lia|].
  cbv zeta. rewrite half_of_3.
  exact (for_range_push_nth LatLng (smoothPoint points (Some 1%Z))
           (length points) 0 [] i Hi).
Qed.

Lemma smoothPoint_window (points : list LatLng) (i lo count : nat) :
  Z.to_nat (Z.max 0 (Z.of_nat i - 1)) = lo ->
  Z.to_nat (Z.min (Z.of_nat (length points) - 1) (Z.of_nat i + 1)
            - Z.max 0 (Z.of_nat i - 1) + 1) = count ->
  smoothPoint points (Some 1%Z) i
  = let sum := for_range count lo (window_add points) (mkWindow 0 0 0 0) in
    mkLatLng (w_lat sum / w_n sum) (w_lon sum / w_n sum)
             (Math_round (w_ts sum / w_n sum)).
Proof. intros <- <-. reflexivity. Qed.

(** X19. With the window 3 the engine uses, smoothing a path of three
    points or more replaces the first point by the mean of the first two,
    the last by the mean of the last two, and every other point by the
    mean of itself and its two neighbours; latitudes, longitudes and
    timestamps are summed from 0 in path order and divided by the count,
    and the timestamp is rounded. *)
Theorem smoothPath_3_is_the_mean_of_neighbours (points : list LatLng) (i : nat) :
  (2 < length points)%nat ->
  (i < length points)%nat ->
  let p := at_index points in
  let add (a : Window) (q : LatLng) :=
    mkWindow (w_lat a + latitude q) (w_lon a + longitude q)
             (w_ts a + timestamp q) (w_n a + 1) in
  let mean (s : Window) :=
    mkLatLng (w_lat s / w_n s) (w_lon s / w_n s) (Math_round (w_ts s / w_n s)) in
  nth_error (smoothPath points 3) i
  = Some (if (i =? 0)%nat
          then mean (add (add (mkWindow 0 0 0 0) (p 0%nat)) (p 1%nat))
          else if (i =? length points - 1)%nat
          then mean (add (add (mkWindow 0 0 0 0) (p (i - 1)%nat)) (p i))
          else mean (add (add (add (mkWindow 0 0 0 0) (p (i - 1)%nat)) (p i))
                         (p (i + 1)%nat))).
Proof.
  intros Hlen Hi p add mean'. rewrite (smoothPath_nth points i Hlen Hi). f_equal.
  destruct (i =? 0)%nat eqn:E0.
  - apply Nat.eqb_eq in E0. subst i.
    rewrite (smoothPoint_window points 0 0 2) by lia. reflexivity.
  - apply Nat.eqb_neq in E0.
    destruct (i =? length points - 1)%nat eqn:E1.
    + apply Nat.eqb_eq in E1.
      rewrite (smoothPoint_window points i (i - 1) 2) by lia.
      simpl for_range. replace (S (i - 1)) with i by lia. reflexivity.
    + apply Nat.eqb_neq in E1.
      rewrite (smoothPoint_window points i (i - 1) 3) by lia.
      simpl for_range. replace (S (i - 1)) with i by lia.
      replace (S i) with (i + 1)%nat by lia. reflexivity.
Qed.

End WithHost.

End SmoothingFacts.

Lemma smoothPath_3_is_the_mean_of_neighbours_witness :
  option_map latitude (nth_error (@smoothPath Reference.host walk14 3) 5)
  = Some ((0 + latitude (at_index walk14 4) + latitude (at_index walk14 5)
           + latitude (at_index walk14 6)) / (0 + 1 + 1 + 1)).
Proof.
  rewrite (@SmoothingFacts.smoothPath_3_is_the_mean_of_neighbours Reference.host
             walk14 5 ltac:(simpl; lia) ltac:(simpl; lia)).
  reflexivity.
Defined.

(** ** The leaderboard *)

Module LeaderboardFacts.
Import Leaderboard.

Lemma has_In (k : string) (m : list PlayerStats) :
  has k m = true <-> In k (map stats_ownerId m).
Proof.
  unfold has. rewrite existsb_exists, in_map_iff. split.
  - intros (s & Hs & E). apply String.eqb_eq in E. exists s. auto.
  - intros (s & E & Hs). exists s. split; [exact Hs|]. apply String.eqb_eq. exact E.
Qed.

Lemma update_keys (k : string) (f : PlayerStats -> PlayerStats) (m : list PlayerStats) :
  (forall s, stats_ownerId (f s) = stats_ownerId s) ->
  map stats_ownerId (update k f m) = map stats_ownerId m.
Proof.
  intros Hf. induction m as [|s m IH]; simpl; [reflexivity|].
  destruct (String.eqb (stats_ownerId s) k); simpl; [rewrite Hf|rewrite IH]; reflexivity.
Qed.

Section WithHost.
Context {host : Host}.

Lemma credit_keys (areaM2 : float) (m : list PlayerStats) (o : TerritoryOwner) :
  map stats_ownerId (credit areaM2 m o)
  = if has (ownerId o) m then map stats_ownerId m
    else map stats_ownerId m ++ [ownerId o].
Proof.
  unfold credit. rewrite update_keys by reflexivity.
  destruct (has (ownerId o) m); [reflexivity|].
  rewrite map_app. reflexivity.
Qed.

Lemma credit_distinct (areaM2 : float) (m : list PlayerStats) (o : TerritoryOwner) :
  NoDup (map stats_ownerId m) -> NoDup (map stats_ownerId (credit areaM2 m o)).
Proof.
  intros H. rewrite credit_keys.
  destruct (has (ownerId o) m) eqn:E; [exact H|].
  apply NoDup_snoc; [exact H|].
  intros Hin. apply has_In in Hin. congruence.
Qed.

Lemma credit_In (areaM2 : float) (m : list PlayerStats) (o : TerritoryOwner) (k : string) :
  In k (map stats_ownerId (credit areaM2 m o))
  <-> In k (map stats_ownerId m) \/ k = ownerId o.
Proof.
  rewrite credit_keys. destruct (has (ownerId o) m) eqn:E.
  - apply has_In in E. split; [auto|]. intros [H| ->]; assumption.
  - rewrite in_app_iff. simpl. split.
    + intros [H|[H|[]]]; auto.
    + intros [H|H]; auto.
Qed.

Lemma owners_distinct (areaM2 : float) (os : list TerritoryOwner) (m : list PlayerStats) :
  NoDup (map stats_ownerId m) ->
  NoDup (map stats_ownerId (fold_left (credit areaM2) os m)).
Proof.
  revert m. induction os as [|o os IH]; intros m H; simpl; [exact H|].
  apply IH. apply credit_distinct. exact H.
Qed.

Lemma owners_In (areaM2 : float) (os : list TerritoryOwner) (m : list PlayerStats)
    (k : string) :
  In k (map stats_ownerId (fold_left (credit areaM2) os m))
  <-> In k (map stats_ownerId m) \/ In k (map ownerId os).
Proof.
  revert m. induction os as [|o os IH]; intros m; simpl; [tauto|].
  rewrite IH, credit_In. intuition auto.
Qed.

Lemma territories_distinct (ts : list Territory) (m : list PlayerStats) :
  NoDup (map stats_ownerId m) ->
  NoDup (map stats_ownerId (fold_left addTerritory ts m)).
Proof.
  revert m. induction ts as [|t ts IH]; intros m H; simpl; [exact H|].
  apply IH. unfold addTerritory.
  destruct (length (polygon t) <? 3)%nat; [exact H|].
  apply owners_distinct. exact H.
Qed.

Lemma territories_In (ts : list Territory) (m : list PlayerStats) (k : string) :
  In k (map stats_ownerId (fold_left addTerritory ts m))
  <-> In k (map stats_ownerId m)
      \/ exists t, In t ts /\ (3 <= length (polygon t))%nat
                   /\ In k (map ownerId (owners t)).
Proof.
  revert m. induction ts as [|t ts IH]; intros m; simpl.
  - split; [auto|]. intros [H|(t & [] & _)]. exact H.
  - rewrite IH. unfold addTerritory.
    destruct (length (polygon t) <? 3)%nat eqn:E.
    + apply Nat.ltb_lt in E. split.
      * intros [H|(t' & Ht' & H3 & Hk)]; [auto|]. right. exists t'. auto.
      * intros [H|(t' & [<-|Ht'] & H3 & Hk)]; [auto|lia|].
        right. exists t'. auto.
    + apply Nat.ltb_ge in E. rewrite owners_In. split.
      * intros [[H|H]|(t' & Ht' & H3 & Hk)]; [auto| |].
        -- right. exists t. auto.
        -- right. exists t'. auto.
      * intros [H|(t' & [<-|Ht'] & H3 & Hk)]; [auto|auto|].
        right. exists t'. auto.
Qed.

(** X20. Before it is sorted and cut to ten, the leaderboard lists each
    player once, and lists exactly the players who own a territory that
    was created in the period (its creation time is not below the start
    of the period), is of the selected mode and has a polygon of at least
    3 points. *)
Theorem leaderboard_lists_each_owner_once
    (me nickname ownerColor : string) (periodStart : float)
    (modeFilter : option ActivityMode) (territories : list Territory) :
  me <> ""%string -> nickname <> ""%string -> ownerColor <> ""%string ->
  NoDup (map stats_ownerId
           (playerStats me nickname ownerColor periodStart modeFilter territories))
  /\ forall k,
       In k (map stats_ownerId
               (playerStats me nickname ownerColor periodStart modeFilter territories))
       <-> exists t, In t territories
                     /\ (createdAt t <? periodStart) = false
                     /\ (forall m, modeFilter = Some m -> mode t = m)
                     /\ (3 <= length (polygon t))%nat
                     /\ In k (map ownerId (owners t)).
Proof.
  intros H1 H2 H3. unfold playerStats.
  apply String.eqb_neq in H1, H2, H3. rewrite H1, H2, H3.
  split; [apply territories_distinct; constructor|].
  intros k. rewrite territories_In. simpl.
  assert (Hin : forall t, inPeriod periodStart modeFilter t = true
                <-> (createdAt t <? periodStart) = false
                    /\ (forall m, modeFilter = Some m -> mode t = m)).
  { intros t. unfold inPeriod.
    destruct (createdAt t <? periodStart); [split; [discriminate|intros [H _]; discriminate]|].
    destruct modeFilter as [m|].
    - destruct (mode t), m; simpl; split; try discriminate; auto;
        try (intros _; split; [reflexivity|intros m' Hm'; congruence]);
        intros [_ H]; specialize (H _ eq_refl); discriminate.
    - split; auto. intros _. split; [reflexivity|discriminate]. }
  split.
  - intros [[]|(t & Ht & Hlen & Hk)].
    apply filter_In in Ht. destruct Ht as [Ht Hp]. apply Hin in Hp.
    exists t. tauto.
  - intros (t & Ht & Hc & Hm & Hlen & Hk). right. exists t.
    split; [|auto]. apply filter_In. split; [exact Ht|]. apply Hin. auto.
Qed.

End WithHost.

End LeaderboardFacts.

Lemma leaderboard_lists_each_owner_once_witness :
  NoDup (map Leaderboard.stats_ownerId
           (@Leaderboard.playerStats Reference.host "A" "Ann" "#f00" 1600000000000 None
              (captures siege []))).
Proof.
  exact (proj1 (@LeaderboardFacts.leaderboard_lists_each_owner_once Reference.host
                  "A" "Ann" "#f00" 1600000000000 None (captures siege [])
                  ltac:(discriminate) ltac:(discriminate) ltac:(discriminate))).
Defined.

(** ** Decay of a territory dated in the future *)

Module DecayEdge.
Import Decay FloatOrderFacts.

Section WithHost.
Context {host : Host}.

Lemma Math_max_0_negative (x : float) : (x <? 0) = true -> Math_max 0 x = 0.
Proof.
  intros H. unfold Math_max.
  destruct (ltb_not_nan _ _ H) as [Hx _]. rewrite Hx.
  rewrite (ltb_asym _ _ H), H. reflexivity.
Qed.

(** X21. A territory whose creation time lies after the time of the view
    (the day count is negative) is shown as one created at that very
    moment: the exponent is 0 and not the negative day count, the factor
    is [Math.pow(1 - 0.02, 0)], and every owner's strength is multiplied
    by it. *)
Theorem future_territory_decays_as_new (now : float) (t : Territory) :
  (days now (createdAt t) <? 0) = true ->
  decay now (createdAt t) = Math_pow (1 - DAILY_DECAY_RATE) 0
  /\ owners (decayTerritory now t)
     = map (fun o => mkOwner (ownerId o)
                       (strength o * Math_pow (1 - DAILY_DECAY_RATE) 0))
           (owners t).
Proof.
  intros H.
  assert (E : decay now (createdAt t) = Math_pow (1 - DAILY_DECAY_RATE) 0).
  { unfold decay. rewrite (Math_max_0_negative _ H). reflexivity. }
  split; [exact E|].
  unfold decayTerritory. simpl. rewrite E. reflexivity.
Qed.

End WithHost.

End DecayEdge.

Lemma future_territory_decays_as_new_witness :
  map strength
      (owners (@Decay.decayTerritory Reference.host 1699990000000
                 (held "t1" square [mkOwner "A" 1.5; mkOwner "B" 0.5])))
  = [1.5; 0.5].
Proof.
  rewrite (proj2 (@DecayEdge.future_territory_decays_as_new Reference.host
                    1699990000000
                    (held "t1" square [mkOwner "A" 1.5; mkOwner "B" 0.5])
                    ltac:(vm_compute; reflexivity))).
  vm_compute. reflexivity.
Defined.
